(** * The notebook editor of CatColab: cells, active cell, selection, reorder

  A shallow embedding of [NotebookEditor] (frontend, notebook editor
  component): the closures that the component defines over its signal
  [cellsState] and over the notebook it is given, written as computations
  in a small state monad, and the properties of these closures. *)

From stdpp Require Import base decidable option list gmap strings.
From Stdlib Require Import ZArith Lia.

Open Scope Z_scope.

(** ** JavaScript arrays, as far as the editor uses them

  An array is a [list]; indices and counts are JavaScript numbers, here
  integers of [Z], and each operation writes out what [Array.prototype]
  does with an index that is negative or beyond the end. *)
Module JsArray.

Definition len {A} (l : list A) : Z := Z.of_nat (length l).

(** [l[i]]: the element, or [undefined] (here [None]) out of range. *)
Definition get {A} (l : list A) (i : Z) : option A :=
  if decide (0 ≤ i) then l !! Z.to_nat i else None.

(** The start of a splice: a negative [start] counts from the end and
    stops at 0, a [start] beyond the end is the end. *)
Definition spliceStart {A} (l : list A) (start : Z) : Z :=
  if decide (start < 0) then Z.max (len l + start) 0 else Z.min start (len l).

Definition spliceCount {A} (l : list A) (start deleteCount : Z) : Z :=
  Z.min (Z.max deleteCount 0) (len l - spliceStart l start).

(** [l.splice(start, deleteCount, ...items)]: the removed elements and
    the array afterwards. *)
Definition splice {A} (l : list A) (start deleteCount : Z) (items : list A)
  : list A * list A :=
  let s := Z.to_nat (spliceStart l start) in
  let d := Z.to_nat (spliceCount l start deleteCount) in
  (take d (drop s l), take s l ++ items ++ drop (s + d)%nat l).

(** [l.push(x)]: the array afterwards (its new length is the result of
    the call, which the editor ignores). *)
Definition push {A} (l : list A) (x : A) : list A := l ++ [x].

(** [l[i] = x].  Inside the array the element is overwritten; at
    [l.length] the array grows by one; a negative [i] names a property
    that is not an element, so the sequence is as before.  Beyond
    [l.length] the array would get empty slots, which a sequence of
    cells cannot hold: there is no result ([None]). *)
Definition set {A} (l : list A) (i : Z) (x : A) : option (list A) :=
  if decide (i < 0) then Some l
  else if decide (i < len l) then Some (<[Z.to_nat i := x]> l)
  else if decide (i = len l) then Some (l ++ [x])
  else None.

Fixpoint findIndexFrom {A} (p : A → bool) (l : list A) (k : Z) : Z :=
  match l with
  | [] => -1
  | x :: l' => if p x then k else findIndexFrom p l' (k + 1)
  end.

(** [l.findIndex(p)]: the first index whose element satisfies [p], or -1. *)
Definition findIndex {A} (p : A → bool) (l : list A) : Z :=
  findIndexFrom p l 0.

(** [l.some(p)]. *)
Definition some {A} (p : A → bool) (l : list A) : bool := existsb p l.

End JsArray.

(** ** Cells and notebooks *)

(** A cell id is a UUID, a string. *)
Definition CellId : Type := string.

Inductive CellTag := TagRichText | TagFormal | TagStem.

#[global] Instance CellTag_eq_dec : EqDecision CellTag.
Proof. solve_decision. Defined.

Section Types.
Context {T : Type}.

(** Modelled from the spec: the type [Cell<T>] of [./types], which is not
    among the sources: a tagged union of a stem cell without content, a
    rich-text cell with text content and a formal cell with content of
    type [T], each with its id. *)
Inductive Cell :=
| RichTextCell (id : CellId) (content : string)
| FormalCell (id : CellId) (content : T)
| StemCell (id : CellId).

Definition cell_id (c : Cell) : CellId :=
  match c with
  | RichTextCell id _ | FormalCell id _ | StemCell id => id
  end.

Definition cell_tag (c : Cell) : CellTag :=
  match c with
  | RichTextCell _ _ => TagRichText
  | FormalCell _ _ => TagFormal
  | StemCell _ => TagStem
  end.

(** Modelled from the spec: [newRichTextCell] of [./types], a rich-text
    cell without text; the fresh id that a call draws is an argument. *)
Definition newRichTextCell (fresh : CellId) : Cell := RichTextCell fresh EmptyString.

(** Modelled from the spec: [newStemCell] of [./types], a stem cell; the
    fresh id that a call draws is an argument. *)
Definition newStemCell (fresh : CellId) : Cell := StemCell fresh.

(** Modelled from the spec: [deepCopyJSON] of [../util/deepcopy], a value
    copy.  Values here have no identity apart from their content, so the
    copy of a cell is that cell. *)
Definition deepCopyJSON (c : Cell) : Cell := c.

Record Notebook := { cells : list Cell }.

Definition ids (l : list Cell) : list CellId := cell_id <$> l.

(** The signal [cellsState] of the component. *)
Record CellsState := {
  activeCell : Z;
  selectedCells : gset CellId;
}.

(** What the closures of the component read and write: the notebook
    ([props.notebook], and [nb] inside a [changeNotebook] transaction),
    the signal [cellsState], and the text selection of the page
    ([document.getSelection()]: [None] when there is none to ask,
    otherwise its number of ranges). *)
Record Editor := {
  notebook : Notebook;
  cellsState : CellsState;
  textSelection : option nat;
}.

(** A closure of the component is a computation on [Editor]; [None] is a
    run that raises an error: the transaction it is in commits nothing and
    the state stays as it was before the closure ran. *)
Definition M (A : Type) : Type := Editor → option (A * Editor).

#[global] Instance M_ret : MRet M := λ A x e, Some (x, e).
#[global] Instance M_bind : MBind M := λ A B f m e,
  match m e with
  | Some (x, e') => f x e'
  | None => None
  end.

(** The state in which a computation ends. *)
Definition exec {A} (m : M A) (e : Editor) : option Editor :=
  snd <$> m e.

(** The initial value of the signal. *)
Definition initCellsState (nb : Notebook) : CellsState :=
  {| activeCell := if decide (JsArray.len (cells nb) > 0) then 0 else -1;
     selectedCells := ∅ |}.

Definition initEditor (nb : Notebook) (sel : option nat) : Editor :=
  {| notebook := nb; cellsState := initCellsState nb; textSelection := sel |}.

End Types.

Arguments Cell : clear implicits.
Arguments Notebook : clear implicits.
Arguments Editor : clear implicits.
Arguments M : clear implicits.


(** ** Drag payloads and the reorder destination *)

(** Modelled from the spec: the edge of the drop target that is closest to
    the pointer, a type of the drag-and-drop library.  The notebook is laid
    out on the vertical axis: [EdgeTop] is the leading edge (drop before the
    target), [EdgeBottom] the trailing edge (drop after it). *)
Inductive Edge := EdgeTop | EdgeBottom.

(** Modelled from the spec: the axis of a list, a type of the drag-and-drop
    library; the notebook passes ["vertical"]. *)
Inductive Axis := Vertical | Horizontal.

(** Modelled from the spec: the payload of a drag source or of a drop
    target.  The payload of a notebook cell carries the id of its cell and,
    on a drop target, the closest edge (absent when none was attached);
    any other payload is [OtherData]. *)
Inductive DragData :=
| CellDragData (cellId : CellId) (closestEdge : option Edge)
| OtherData.

(** Modelled from the spec: the predicate [isCellDragData] of
    [./notebook_cell], which recognises the payload of a notebook cell by
    its shape. *)
Definition isCellDragData (d : DragData) : bool :=
  match d with
  | CellDragData _ _ => true
  | OtherData => false
  end.

(** Modelled from the spec: [extractClosestEdge] of the drag-and-drop
    library, which reads the closest edge back from the payload of a drop
    target, or gives [null]. *)
Definition extractClosestEdge (d : DragData) : option Edge :=
  match d with
  | CellDragData _ e => e
  | OtherData => None
  end.

(** Modelled from the spec: [getReorderDestinationIndex], imported from the
    drag-and-drop library and not among the sources.  The destination is an
    index into the sequence from which the source has been removed: the
    place just before the target for its leading edge, just after it for
    its trailing edge.  A target below the source ([startIndex <
    indexOfTarget]) has moved up by one once the source is gone.  On the
    cases the spec leaves open the definition follows the library: an
    index of -1 or a drop of a cell on itself gives [startIndex], a target
    without an edge gives [indexOfTarget]. *)
Definition getReorderDestinationIndex
  (startIndex indexOfTarget : Z) (closestEdgeOfTarget : option Edge)
  (axis : Axis) : Z :=
  if decide (startIndex = -1 ∨ indexOfTarget = -1) then startIndex
  else if decide (startIndex = indexOfTarget) then startIndex
  else match closestEdgeOfTarget with
       | None => indexOfTarget
       | Some edge =>
           let isGoingAfter :=
             match axis, edge with
             | Vertical, EdgeBottom => true
             | _, _ => false
             end in
           let isMovingForward := bool_decide (startIndex < indexOfTarget) in
           if isMovingForward
           then (if isGoingAfter then indexOfTarget else indexOfTarget - 1)
           else (if isGoingAfter then indexOfTarget + 1 else indexOfTarget)
       end.

(** ** The closures of [NotebookEditor] *)

Section NotebookEditor.
Context {T : Type}.

#[local] Abbreviation Cell := (Cell T).
#[local] Abbreviation M := (M T).
#[local] Abbreviation Editor := (Editor T).

(** *** Reading and writing the state *)

(** [props.notebook.cells], and [nb.cells] inside a transaction. *)
Definition readCells : M (list Cell) := λ e, Some (cells (notebook e), e).

Definition writeCells (l : list Cell) : M unit := λ e,
  Some (tt, {| notebook := {| cells := l |};
               cellsState := cellsState e;
               textSelection := textSelection e |}).

(** A run that raises an error. *)
Definition stuck {A} : M A := λ _, None.

(** [nb.cells.splice(start, deleteCount, ...items)].  The cells of the
    notebook are a list of the Automerge document, not a plain array: a
    start that is negative or beyond the length, or a count that is negative
    or reaches beyond the end, raises a [RangeError]; within the list the
    splice is that of an array. *)
Definition spliceCells (start deleteCount : Z) (items : list Cell)
  : M (list Cell) :=
  l ← readCells;
  if decide (0 ≤ start ≤ JsArray.len l
             ∧ 0 ≤ deleteCount ∧ start + deleteCount ≤ JsArray.len l)
  then
    let '(removed, l') := JsArray.splice l start deleteCount items in
    writeCells l';;
    mret removed
  else stuck.

(** [nb.cells.push(cell)]. *)
Definition pushCell (cell : Cell) : M unit :=
  l ← readCells;
  writeCells (JsArray.push l cell).

(** [nb.cells[i] = cell], on the list of the Automerge document: an index
    that is negative or beyond the length raises a [RangeError]. *)
Definition assignCell (i : Z) (cell : Cell) : M unit :=
  l ← readCells;
  if decide (i < 0) then stuck
  else
    match JsArray.set l i cell with
    | Some l' => writeCells l'
    | None => stuck
    end.

(** [cellsState()] and [setCellsState(f)]. *)
Definition readCellsState : M CellsState := λ e, Some (cellsState e, e).

Definition setCellsState (f : CellsState → CellsState) : M unit := λ e,
  Some (tt, {| notebook := notebook e;
               cellsState := f (cellsState e);
               textSelection := textSelection e |}).

(** The accessors [activeCell()] and [selectedCells()]. *)
Definition readActiveCell : M Z :=
  st ← readCellsState; mret (activeCell st).

Definition readSelectedCells : M (gset CellId) :=
  st ← readCellsState; mret (selectedCells st).

(** [document.getSelection()?.removeAllRanges()]. *)
Definition removeAllRanges : M unit := λ e,
  Some (tt, {| notebook := notebook e;
               cellsState := cellsState e;
               textSelection := (λ _, 0%nat) <$> textSelection e |}).

(** The prop [changeNotebook]: the caller's mutation channel.  It runs the
    closure it is given once, as one transaction on the notebook; a
    closure that fails commits nothing. *)
Definition changeNotebook (f : M unit) : M unit := f.

(** *** Active cell and selection *)

Definition setActiveCell (i : Z) : M unit :=
  setCellsState (λ prev, {| activeCell := i; selectedCells := ∅ |}).

(** The argument of [setSelectedCells] is a set or a function on sets. *)
Definition setSelectedCells
  (update : gset CellId + (gset CellId → gset CellId)) : M unit :=
  prev ← readSelectedCells;
  let s := match update with
           | inl s => s
           | inr f => f prev
           end in
  setCellsState (λ prev, {| activeCell := activeCell prev;
                            selectedCells := s |});;
  if decide (size s ≠ 0%nat) then removeAllRanges else mret tt.

Definition setActiveCellViaFocus (i : Z) : M unit :=
  setCellsState (λ prev, {| activeCell := i;
                            selectedCells := selectedCells prev |}).

Definition toggleCellSelection (cellId : CellId) : M unit :=
  setSelectedCells (inr (λ prev,
    if decide (cellId ∈ prev) then prev ∖ {[ cellId ]}
    else prev ∪ {[ cellId ]})).

Definition handleCellContentClick (index : Z) (cellId : CellId)
  (ctrlKey : bool) : M unit :=
  if ctrlKey then toggleCellSelection cellId else mret tt.

(** *** Adding and replacing cells *)

Definition addAfterActiveCell (cell : Cell) : M unit :=
  changeNotebook (
    a ← readActiveCell;
    spliceCells (a + 1) 0 [cell];;
    a' ← readActiveCell;
    setActiveCell (a' + 1)).

Definition replaceCellWith (i : Z) (cell : Cell) : M unit :=
  changeNotebook (assignCell i cell).

Definition addOrReplaceActiveCell (cell : Cell) : M unit :=
  l ← readCells;
  a ← readActiveCell;
  match JsArray.get l a with
  | Some c =>
      match cell_tag c with
      | TagFormal | TagRichText => addAfterActiveCell cell
      | TagStem => a' ← readActiveCell; replaceCellWith a' cell
      end
  | None => addAfterActiveCell cell
  end.

Definition appendCell (cell : Cell) : M unit :=
  changeNotebook (
    pushCell cell;;
    l ← readCells;
    setActiveCell (JsArray.len l - 1)).

(** *** Cell constructors and the commands derived from them *)

Definition KbdKey : Type := string.

(** [s.includes(sub)]. *)
Definition includes (s sub : string) : bool :=
  bool_decide (is_Some (String.index 0 sub s)).

(** The modifier key of the shortcuts of cell constructors, chosen by the
    platform ([navigator.userAgent]). *)
Definition cellShortcutModifier (userAgent : string) : KbdKey :=
  if includes userAgent "Mac" then "Control" else "Alt".

(** A constructor of cells; [construct] draws a fresh id, its argument. *)
Record CellConstructor := {
  name : string;
  description : option string;
  shortcut : option (list KbdKey);
  construct : CellId → Cell;
}.

(** Modelled from the spec: the type [Completion] of [../components], a
    command with the fields of a constructor and the action [onComplete],
    which may be absent; the action draws the fresh id of the cell that it
    constructs. *)
Record Completion := {
  completionName : string;
  completionDescription : option string;
  completionShortcut : option (list KbdKey);
  onComplete : option (CellId → M unit);
}.

(** [cellConstructors()]; its arguments are what it reads: the user agent
    and [props.cellConstructors]. *)
Definition cellConstructors (userAgent : string)
  (propsCellConstructors : list CellConstructor) : list CellConstructor :=
  {| name := "Text";
     description := Some "Start writing text";
     shortcut := Some [cellShortcutModifier userAgent; "T"];
     construct := λ fresh, newRichTextCell fresh |}
  :: propsCellConstructors.

Definition insertCommands (userAgent : string)
  (propsCellConstructors : list CellConstructor) : list Completion :=
  (λ cc, {| completionName := name cc;
            completionDescription := description cc;
            completionShortcut := shortcut cc;
            onComplete := Some (λ fresh,
              addOrReplaceActiveCell (construct cc fresh)) |})
  <$> cellConstructors userAgent propsCellConstructors.

Definition replaceCommands (userAgent : string)
  (propsCellConstructors : list CellConstructor) (i : Z) : list Completion :=
  (λ cc, {| completionName := name cc;
            completionDescription := description cc;
            completionShortcut := shortcut cc;
            onComplete := Some (λ fresh,
              replaceCellWith i (construct cc fresh)) |})
  <$> cellConstructors userAgent propsCellConstructors.

(** The shortcuts that the component binds, each with what it runs: none
    under [props.noShortcuts]; otherwise one for each insert command that
    has a shortcut (a command without a completion runs nothing), and
    Shift-Enter, which adds a stem cell after the active cell. *)
Definition shortcuts (noShortcuts : bool) (userAgent : string)
  (propsCellConstructors : list CellConstructor)
  : list (list KbdKey * (CellId → M unit)) :=
  if noShortcuts then []
  else
    omap (λ command,
            keys ← completionShortcut command;
            Some (keys, default (λ _, mret tt) (onComplete command)))
         (insertCommands userAgent propsCellConstructors)
    ++ [(["Shift"; "Enter"], λ fresh, addAfterActiveCell (newStemCell fresh))].

(** *** Drag and drop of cells *)

Definition hasId (cellId : CellId) (cell : Cell) : bool :=
  bool_decide (cell_id cell = cellId).

(** [canMonitor({ source })], on the payload [source.data]. *)
Definition canMonitor (source : DragData) : M bool :=
  l ← readCells;
  mret (match source with
        | CellDragData sourceId _ => JsArray.some (hasId sourceId) l
        | OtherData => false
        end).

(** [onDrop({ location, source })], on the payloads of
    [location.current.dropTargets] and on [source.data].  The splice at
    [sourceIndex] removes a cell, [sourceIndex] being an index of the
    list; were nothing removed there would be no cell to copy, and the run
    raises an error. *)
Definition onDrop (dropTargets : list DragData) (source : DragData)
  : M unit :=
  match head dropTargets, source with
  | Some (CellDragData targetId edge), CellDragData sourceId _ =>
      l ← readCells;
      let sourceIndex := JsArray.findIndex (hasId sourceId) l in
      let targetIndex := JsArray.findIndex (hasId targetId) l in
      if decide (sourceIndex < 0 ∨ targetIndex < 0) then mret tt
      else
        let finalIndex :=
          getReorderDestinationIndex sourceIndex targetIndex
            (extractClosestEdge (CellDragData targetId edge)) Vertical in
        changeNotebook (
          removed ← spliceCells sourceIndex 1 [];
          match removed with
          | cell :: _ => spliceCells finalIndex 0 [deepCopyJSON cell];; mret tt
          | [] => stuck
          end)
  | _, _ => mret tt
  end.

(** *** The actions of the cell at index [i] *)

(** Modelled from the spec: the type [CellActions] of [./notebook_cell],
    the actions that the editor of a cell may invoke; [createAbove] and
    [createBelow] draw the fresh id of the stem cell that they create. *)
Record CellActions := {
  activateAbove : M unit;
  activateBelow : M unit;
  createAbove : CellId → M unit;
  createBelow : CellId → M unit;
  deleteBackward : M unit;
  deleteForward : M unit;
  hasFocused : M unit;
  select : M unit;
}.

(** The object [cellActions] that the component builds for the cell [cell]
    at index [i()] of the notebook. *)
Definition cellActions (cell : Cell) (i : Z) : CellActions :=
  {| activateAbove :=
       if decide (i > 0) then setActiveCell (i - 1) else mret tt;
     activateBelow :=
       l ← readCells;
       let n := JsArray.len l in
       if decide (i < n - 1) then setActiveCell (i + 1) else mret tt;
     createAbove := λ fresh,
       changeNotebook (
         spliceCells i 0 [newStemCell fresh];;
         setActiveCell i);
     createBelow := λ fresh,
       changeNotebook (
         spliceCells (i + 1) 0 [newStemCell fresh];;
         setActiveCell (i + 1));
     deleteBackward :=
       changeNotebook (
         spliceCells i 1 [];;
         setActiveCell (i - 1));
     deleteForward :=
       changeNotebook (
         spliceCells i 1 [];;
         setActiveCell i);
     hasFocused := setActiveCellViaFocus i;
     select := setSelectedCells (inl {[ cell_id cell ]}) |}.

(** [isActive()] and [isSelected()] of the cell [cell] at index [i()]. *)
Definition isActive (i : Z) : M bool :=
  a ← readActiveCell; mret (bool_decide (a = i)).

Definition isSelected (cell : Cell) : M bool :=
  s ← readSelectedCells; mret (bool_decide (cell_id cell ∈ s)).

(** *** States that differ from a given one in one component *)

(** The state [st] with the cells [l] in its notebook. *)
Definition withCells (l : list Cell) (st : Editor) : Editor :=
  {| notebook := {| cells := l |};
     cellsState := cellsState st;
     textSelection := textSelection st |}.

(** The state [st] after [setActiveCell(i)]. *)
Definition withActive (i : Z) (st : Editor) : Editor :=
  {| notebook := notebook st;
     cellsState := {| activeCell := i; selectedCells := ∅ |};
     textSelection := textSelection st |}.

(** *** Observations on notebooks and computations *)

(** The payload [d] is that of a notebook cell and its id is the id of a
    cell of [l]. *)
Definition resolves (d : DragData) (l : list Cell) : Prop :=
  match d with
  | CellDragData cellId _ => cellId ∈ ids l
  | OtherData => False
  end.

(** How many cells of [l] have the id [cellId]. *)
Definition occurrences (cellId : CellId) (l : list Cell) : nat :=
  length (filter (λ c, cell_id c = cellId) l).

(** Whenever the computation [m] completes, the selection is empty. *)
Definition clearsSelection (m : M unit) : Prop :=
  ∀ st st', exec m st = Some st' → selectedCells (cellsState st') = ∅.

(** The computation [m] completes from the state [st]: it raises no
    error. *)
Definition completes (m : M unit) (st : Editor) : Prop :=
  is_Some (exec m st).

(** What relates a constructor and the command derived from it: the same
    name, description and shortcut, and a completion that runs [action] on
    the cell that the constructor constructs. *)
Definition derivedFrom (action : Cell → M unit)
  (cc : CellConstructor) (cmd : Completion) : Prop :=
  completionName cmd = name cc
  ∧ completionDescription cmd = description cc
  ∧ completionShortcut cmd = shortcut cc
  ∧ ∃ k, onComplete cmd = Some k
         ∧ ∀ fresh, k fresh = action (construct cc fresh).

End NotebookEditor.

Arguments CellConstructor : clear implicits.
Arguments Completion : clear implicits.
Arguments CellActions : clear implicits.

(** ** A notebook to run the closures on

    Three cells with text as formal content: a stem cell, a rich-text cell
    and a formal cell; in [sampleEditor a] the active cell is [a], the
    second cell is selected and the page has one range of text selected. *)

Definition sampleCells : list (Cell string) :=
  [StemCell "c0"; RichTextCell "c1" "text"; FormalCell "c2" "ob"].

Definition sampleEditor (a : Z) : Editor string :=
  {| notebook := {| cells := sampleCells |};
     cellsState := {| activeCell := a; selectedCells := {[ "c1" ]} |};
     textSelection := Some 1%nat |}.

(** ** What the component renders, and the events it handles *)

Section Rendering.
Context {T : Type}.

#[local] Abbreviation Cell := (Cell T).
#[local] Abbreviation M := (M T).
#[local] Abbreviation Editor := (Editor T).

(** The placeholder of the empty notebook, with its button to append a
    cell: [<Show when={props.notebook.cells.length === 0}>]. *)
Definition emptyPlaceholderShown (nb : Notebook T) : bool :=
  bool_decide (JsArray.len (cells nb) = 0).

(** The button below the cells to append a cell:
    [<Show when={props.notebook.cells.some((cell) => cell.tag !== "stem")}>]. *)
Definition appendButtonShown (nb : Notebook T) : bool :=
  JsArray.some (λ cell, bool_decide (cell_tag cell ≠ TagStem)) (cells nb).

(** [changeContent(f)] that the editor of the formal cell at index [i()]
    receives.  In the source [f] mutates the content in place; here [f]
    gives the content afterwards.  The source takes the cell at [i()] for a
    formal cell; where it is none the run raises an error. *)
Definition changeContent (i : Z) (f : T → T) : M unit :=
  changeNotebook (
    l ← readCells;
    match JsArray.get l i with
    | Some (FormalCell id content) =>
        writeCells (<[Z.to_nat i := FormalCell id (f content)]> l)
    | _ => stuck
    end).

(** [selection.type] of the selection of the page. *)
Inductive SelectionType := SelectionNone | SelectionCaret | SelectionRange.

#[global] Instance SelectionType_eq_dec : EqDecision SelectionType.
Proof. solve_decision. Defined.

(** [document.getSelection()], as far as the state holds it. *)
Definition readTextSelection : M (option nat) :=
  λ e, Some (textSelection e, e).

(** [handleSelectionChange], the listener of [selectionchange].  The type of
    the selection, which the state does not hold, is an argument. *)
Definition handleSelectionChange (type : SelectionType) : M unit :=
  selection ← readTextSelection;
  s ← readSelectedCells;
  match selection with
  | Some _ =>
      if bool_decide (type = SelectionRange) && bool_decide (0 < size s)%nat
      then setSelectedCells (inl ∅)
      else mret tt
  | None => mret tt
  end.

(** What the user can do to the editor: invoke an action of the cell
    rendered at an index, click the content of a cell, edit the content of
    a formal cell, complete a replace command of a stem cell or an insert
    command with the cell that its constructor has constructed, press
    Shift-Enter, press a button that appends a cell, drop a dragged
    element, or change the text selection of the page. *)
Inductive Event :=
| Focus (i : Z)
| ActivateAbove (i : Z)
| ActivateBelow (i : Z)
| CreateAbove (i : Z) (fresh : CellId)
| CreateBelow (i : Z) (fresh : CellId)
| DeleteBackward (i : Z)
| DeleteForward (i : Z)
| Select (i : Z)
| ClickContent (i : Z) (ctrlKey : bool)
| ChangeContent (i : Z) (f : T → T)
| ReplaceCommand (i : Z) (cell : Cell)
| InsertCommand (cell : Cell)
| ShiftEnter (fresh : CellId)
| AppendButton (fresh : CellId)
| Drop (dropTargets : list DragData) (source : DragData)
| SelectionChange (type : SelectionType).

(** [<For each={props.notebook.cells}>]: an element is rendered, with its
    actions, for each cell of the notebook and for no other index. *)
Definition forCellAt (i : Z) (k : Cell → M unit) : M unit :=
  l ← readCells;
  match JsArray.get l i with
  | Some cell => k cell
  | None => mret tt
  end.

(** The closure that an event runs.  The editor with [changeContent] is
    rendered for a formal cell, the editor with the replace commands for a
    stem cell, and a button that appends for a placeholder that is shown. *)
Definition handle (ev : Event) : M unit :=
  match ev with
  | Focus i => forCellAt i (λ cell, hasFocused (cellActions cell i))
  | ActivateAbove i => forCellAt i (λ cell, activateAbove (cellActions cell i))
  | ActivateBelow i => forCellAt i (λ cell, activateBelow (cellActions cell i))
  | CreateAbove i fresh =>
      forCellAt i (λ cell, createAbove (cellActions cell i) fresh)
  | CreateBelow i fresh =>
      forCellAt i (λ cell, createBelow (cellActions cell i) fresh)
  | DeleteBackward i =>
      forCellAt i (λ cell, deleteBackward (cellActions cell i))
  | DeleteForward i => forCellAt i (λ cell, deleteForward (cellActions cell i))
  | Select i => forCellAt i (λ cell, select (cellActions cell i))
  | ClickContent i ctrlKey =>
      forCellAt i (λ cell, handleCellContentClick i (cell_id cell) ctrlKey)
  | ChangeContent i f =>
      forCellAt i (λ cell,
        match cell_tag cell with
        | TagFormal => changeContent i f
        | _ => mret tt
        end)
  | ReplaceCommand i new =>
      forCellAt i (λ cell,
        match cell_tag cell with
        | TagStem => replaceCellWith i new
        | _ => mret tt
        end)
  | InsertCommand new => addOrReplaceActiveCell new
  | ShiftEnter fresh => addAfterActiveCell (newStemCell fresh)
  | AppendButton fresh =>
      l ← readCells;
      if emptyPlaceholderShown {| cells := l |}
         || appendButtonShown {| cells := l |}
      then appendCell (newStemCell fresh)
      else mret tt
  | Drop dropTargets source => onDrop dropTargets source
  | SelectionChange type => handleSelectionChange type
  end.

(** The events of a session, one after the other, as long as the closure
    of none of them raises an error. *)
Fixpoint handleAll (evs : list Event) : M unit :=
  match evs with
  | [] => mret tt
  | ev :: evs' => handle ev;; handleAll evs'
  end.

(** The id of the cell that an event brings into the notebook, if it
    brings one. *)
Definition brings (ev : Event) : option CellId :=
  match ev with
  | CreateAbove _ fresh | CreateBelow _ fresh
  | ShiftEnter fresh | AppendButton fresh => Some fresh
  | ReplaceCommand _ new | InsertCommand new => Some (cell_id new)
  | _ => None
  end.

(** The ways in which one event changes the sequence of cells [l] into
    [l']: the ids stay, up to their order; or one cell, which the event
    brings, is put in; or one cell is taken out; or one cell is replaced by
    a cell that the event brings. *)
Definition oneCellChange (ev : Event) (l l' : list Cell) : Prop :=
  ids l' ≡ₚ ids l
  ∨ (∃ (k : nat) new, brings ev = Some (cell_id new)
                      ∧ l' = take k l ++ new :: drop k l)
  ∨ (∃ k : nat, l' = delete k l)
  ∨ (∃ (k : nat) new, (k < length l)%nat
                      ∧ brings ev = Some (cell_id new)
                      ∧ l' = <[k := new]> l).

(** The active index is -1, an index of the notebook, or its length. *)
Definition activeCellInBounds (st : Editor) : Prop :=
  -1 ≤ activeCell (cellsState st) ≤ JsArray.len (cells (notebook st)).

End Rendering.

Arguments Event : clear implicits.

(** * Properties *)

(** ** Arrays *)

Section JsArrayFacts.
Context {A : Type}.
Implicit Types (l : list A) (x : A) (i : Z).

Lemma len_nonneg l : 0 ≤ JsArray.len l.
Proof. unfold JsArray.len. lia. Qed.

Lemma len_app l1 l2 :
  JsArray.len (l1 ++ l2) = JsArray.len l1 + JsArray.len l2.
Proof. unfold JsArray.len. rewrite length_app. lia. Qed.

Lemma get_in_range l i :
  0 ≤ i < JsArray.len l → ∃ x, JsArray.get l i = Some x ∧ l !! Z.to_nat i = Some x.
Proof.
  intros [Hlo Hhi]. unfold JsArray.get.
  destruct (decide (0 ≤ i)) as [_|]; [|lia].
  destruct (lookup_lt_is_Some_2 l (Z.to_nat i)) as [x Hx].
  - unfold JsArray.len in Hhi. lia.
  - eauto.
Qed.

Lemma get_Some l i x :
  JsArray.get l i = Some x ↔ 0 ≤ i < JsArray.len l ∧ l !! Z.to_nat i = Some x.
Proof.
  unfold JsArray.get, JsArray.len. split.
  - destruct (decide (0 ≤ i)); [|done]. intros Hx.
    pose proof (lookup_lt_Some _ _ _ Hx). split; [lia|done].
  - intros [[Hlo _] Hx]. destruct (decide (0 ≤ i)); [done|lia].
Qed.

Lemma get_None l i :
  JsArray.get l i = None ↔ i < 0 ∨ JsArray.len l ≤ i.
Proof.
  unfold JsArray.get, JsArray.len.
  destruct (decide (0 ≤ i)) as [Hlo|Hlo].
  - rewrite lookup_ge_None. lia.
  - split; [lia|done].
Qed.

Lemma spliceStart_range l start :
  0 ≤ JsArray.spliceStart l start ≤ JsArray.len l.
Proof.
  unfold JsArray.spliceStart. pose proof (len_nonneg l).
  destruct (decide (start < 0)); lia.
Qed.

Lemma spliceStart_in_range l i :
  0 ≤ i ≤ JsArray.len l → JsArray.spliceStart l i = i.
Proof.
  intros Hi. unfold JsArray.spliceStart. destruct (decide (i < 0)); lia.
Qed.

Lemma spliceStart_beyond l i :
  JsArray.len l ≤ i → JsArray.spliceStart l i = JsArray.len l.
Proof.
  intros Hi. pose proof (len_nonneg l).
  unfold JsArray.spliceStart. destruct (decide (i < 0)); lia.
Qed.

(** A splice that only inserts puts the items at its start. *)
Lemma splice_insert_at_start l start (items : list A) :
  let k := Z.to_nat (JsArray.spliceStart l start) in
  JsArray.splice l start 0 items = ([], take k l ++ items ++ drop k l).
Proof.
  cbn. pose proof (spliceStart_range l start).
  unfold JsArray.splice, JsArray.spliceCount.
  replace (Z.to_nat (Z.min (Z.max 0 0)
             (JsArray.len l - JsArray.spliceStart l start)))
    with 0%nat by lia.
  by rewrite Nat.add_0_r, take_0.
Qed.

(** A splice that inserts at a place of the array. *)
Lemma splice_insert l i (items : list A) :
  0 ≤ i ≤ JsArray.len l →
  JsArray.splice l i 0 items
  = ([], take (Z.to_nat i) l ++ items ++ drop (Z.to_nat i) l).
Proof.
  intros Hi. rewrite splice_insert_at_start.
  by rewrite spliceStart_in_range.
Qed.

(** A splice that removes the element at an index of the array. *)
Lemma splice_remove l i x :
  0 ≤ i → l !! Z.to_nat i = Some x →
  JsArray.splice l i 1 [] = ([x], delete (Z.to_nat i) l).
Proof.
  intros Hi Hx. pose proof (lookup_lt_Some _ _ _ Hx) as Hlt.
  unfold JsArray.splice, JsArray.spliceCount, JsArray.spliceStart, JsArray.len.
  destruct (decide (i < 0)); [lia|].
  replace (Z.min i (Z.of_nat (length l))) with i by lia.
  replace (Z.to_nat (Z.min (Z.max 1 0) (Z.of_nat (length l) - i)))
    with 1%nat by lia.
  f_equal.
  - by rewrite (drop_S _ _ _ Hx).
  - rewrite delete_take_drop. cbn. by rewrite Nat.add_1_r.
Qed.

(** The length after any splice. *)
Lemma splice_len l start deleteCount (items : list A) :
  JsArray.len (JsArray.splice l start deleteCount items).2
  = JsArray.len l - JsArray.spliceCount l start deleteCount + JsArray.len items.
Proof.
  pose proof (spliceStart_range l start) as Hs.
  assert (0 ≤ JsArray.spliceCount l start deleteCount
          ≤ JsArray.len l - JsArray.spliceStart l start) as Hd.
  { unfold JsArray.spliceCount. lia. }
  unfold JsArray.splice. cbn [snd].
  revert Hs Hd. generalize (JsArray.spliceStart l start) as s.
  generalize (JsArray.spliceCount l start deleteCount) as d.
  unfold JsArray.len. intros d s Hs Hd.
  rewrite !length_app, length_take, length_drop. lia.
Qed.

Lemma lookup_insert_middle l (k : nat) x :
  (k ≤ length l)%nat → (take k l ++ [x] ++ drop k l) !! k = Some x.
Proof.
  intros Hk. rewrite lookup_app_r; rewrite length_take; [|lia].
  by replace (k - k `min` length l)%nat with 0%nat by lia.
Qed.

Lemma delete_insert_middle l (k : nat) x :
  (k ≤ length l)%nat → delete k (take k l ++ [x] ++ drop k l) = l.
Proof.
  intros Hk. rewrite delete_take_drop.
  rewrite take_app_length'; [|rewrite length_take; lia].
  rewrite (assoc_L (++)).
  rewrite drop_app_length'; [|rewrite length_app, length_take; cbn; lia].
  apply take_drop.
Qed.

Lemma findIndexFrom_spec (p : A → bool) l (k : Z) :
  let r := JsArray.findIndexFrom p l k in
  (r = -1 ∧ Forall (λ x, p x = false) l)
  ∨ (k ≤ r < k + JsArray.len l
     ∧ ∃ x, l !! Z.to_nat (r - k) = Some x ∧ p x = true).
Proof.
  revert k. induction l as [|y l IH]; intros k; cbn.
  - left. by split.
  - destruct (p y) eqn:Hy.
    + right. unfold JsArray.len. cbn [length]. split; [lia|].
      exists y. by replace (k - k) with 0 by lia.
    + destruct (IH (k + 1)) as [[Hr Hall]|[Hr (x & Hx & Hp)]].
      * left. split; [done|]. by constructor.
      * right. unfold JsArray.len in *. cbn [length]. split; [lia|].
        exists x. split; [|done].
        replace (Z.to_nat (JsArray.findIndexFrom p l (k + 1) - k))
          with (S (Z.to_nat (JsArray.findIndexFrom p l (k + 1) - (k + 1))))
          by lia.
        done.
Qed.

Lemma findIndex_spec (p : A → bool) l :
  let r := JsArray.findIndex p l in
  (r = -1 ∧ Forall (λ x, p x = false) l)
  ∨ (0 ≤ r < JsArray.len l ∧ ∃ x, l !! Z.to_nat r = Some x ∧ p x = true).
Proof.
  cbn. unfold JsArray.findIndex.
  destruct (findIndexFrom_spec p l 0) as [?|[Hr (x & Hx & Hp)]]; [by left|].
  right. split; [lia|]. exists x. split; [|done].
  by rewrite Z.sub_0_r in Hx.
Qed.

End JsArrayFacts.

(** ** Running the closures *)

Section EditorFacts.
Context {T : Type}.
Implicit Types (st : Editor T) (cell : Cell T) (l : list (Cell T)).
Implicit Types (i : Z) (cellId : CellId).

Lemma bind_run {A B} (m : M T A) (f : A → M T B) st x st' :
  m st = Some (x, st') → (m ≫= f) st = f x st'.
Proof. intros H. unfold mbind, M_bind. by rewrite H. Qed.

Lemma exec_run {A} (m : M T A) st x st' :
  m st = Some (x, st') → exec m st = Some st'.
Proof. intros H. unfold exec. by rewrite H. Qed.

(** A splice within the list of the notebook is the splice of an array. *)
Lemma spliceCells_run start deleteCount (items : list (Cell T)) st :
  0 ≤ start ≤ JsArray.len (cells (notebook st)) →
  0 ≤ deleteCount →
  start + deleteCount ≤ JsArray.len (cells (notebook st)) →
  spliceCells start deleteCount items st
  = Some ((JsArray.splice (cells (notebook st)) start deleteCount items).1,
          withCells
            (JsArray.splice (cells (notebook st)) start deleteCount items).2
            st).
Proof.
  intros Hs Hd He.
  unfold spliceCells, readCells, writeCells, mbind, M_bind, mret, M_ret.
  destruct (decide _) as [_|Hout]; [|by destruct Hout].
  by destruct (JsArray.splice _ _ _ _).
Qed.

(** A splice that starts outside the list of the notebook raises. *)
Lemma spliceCells_raises start deleteCount (items : list (Cell T)) st :
  start < 0 ∨ JsArray.len (cells (notebook st)) < start →
  spliceCells start deleteCount items st = None.
Proof.
  intros Hout.
  unfold spliceCells, readCells, mbind, M_bind.
  destruct (decide _) as [Hin|_]; [lia|done].
Qed.

Lemma bind_raises {A B} (m : M T A) (f : A → M T B) st :
  m st = None → (m ≫= f) st = None.
Proof. intros H. unfold mbind, M_bind. by rewrite H. Qed.

Lemma readActiveCell_run st :
  readActiveCell st = Some (activeCell (cellsState st), st).
Proof. done. Qed.

Lemma readCells_run st : readCells st = Some (cells (notebook st), st).
Proof. done. Qed.

Lemma setActiveCell_run i st : setActiveCell i st = Some (tt, withActive i st).
Proof. done. Qed.

(** Removing the cell at an index of the notebook, then moving the active
    cell to [j]: the body of [deleteBackward] and of [deleteForward]. *)
Lemma remove_then_activate i j st :
  0 ≤ i < JsArray.len (cells (notebook st)) →
  (spliceCells i 1 [];; setActiveCell j) st
  = Some (tt, withActive j
                (withCells (delete (Z.to_nat i) (cells (notebook st))) st)).
Proof.
  intros Hi. destruct (get_in_range _ _ Hi) as (c & _ & Hc).
  erewrite bind_run; [|apply spliceCells_run; lia].
  by rewrite (splice_remove _ _ c) by (lia || done).
Qed.

(** Inserting a cell somewhere, then moving the active cell to [j]: the
    body of [addAfterActiveCell], [createAbove] and [createBelow]. *)
Lemma insert_then_activate i j cell st :
  0 ≤ i ≤ JsArray.len (cells (notebook st)) →
  (spliceCells i 0 [cell];; setActiveCell j) st
  = Some (tt, withActive j
                (withCells (JsArray.splice (cells (notebook st)) i 0 [cell]).2
                   st)).
Proof. intros Hi. erewrite bind_run; [|apply spliceCells_run; lia]. done. Qed.

(** With [activeCell] at -1 or at an index of the notebook,
    [addAfterActiveCell] splices within the list. *)
Lemma addAfterActiveCell_run cell st :
  -1 ≤ activeCell (cellsState st) < JsArray.len (cells (notebook st)) →
  addAfterActiveCell cell st
  = Some (tt, withActive (activeCell (cellsState st) + 1)
                (withCells
                   (JsArray.splice (cells (notebook st))
                      (activeCell (cellsState st) + 1) 0 [cell]).2 st)).
Proof.
  intros Ha. unfold addAfterActiveCell, changeNotebook.
  erewrite bind_run; [|apply readActiveCell_run].
  erewrite bind_run; [|apply spliceCells_run; lia].
  erewrite bind_run; [|apply readActiveCell_run].
  done.
Qed.

(** With [activeCell] anywhere else, the splice of [addAfterActiveCell]
    raises, before [setActiveCell] is reached. *)
Lemma addAfterActiveCell_raises cell st :
  activeCell (cellsState st) < -1
  ∨ JsArray.len (cells (notebook st)) ≤ activeCell (cellsState st) →
  addAfterActiveCell cell st = None.
Proof.
  intros Ha. unfold addAfterActiveCell, changeNotebook.
  erewrite bind_run; [|apply readActiveCell_run].
  apply bind_raises, spliceCells_raises. lia.
Qed.

Lemma appendCell_run cell st :
  appendCell cell st
  = Some (tt, withActive (JsArray.len (cells (notebook st)))
                (withCells (cells (notebook st) ++ [cell]) st)).
Proof.
  unfold appendCell, changeNotebook, pushCell, readCells, writeCells,
    JsArray.push, mbind, M_bind. cbn.
  rewrite setActiveCell_run, len_app. unfold withActive; cbn.
  do 4 f_equal. unfold JsArray.len. cbn. lia.
Qed.

Lemma setSelectedCells_run update st :
  let s := match update with
           | inl s => s
           | inr f => f (selectedCells (cellsState st))
           end in
  setSelectedCells update st
  = Some (tt, {| notebook := notebook st;
                 cellsState := {| activeCell := activeCell (cellsState st);
                                  selectedCells := s |};
                 textSelection :=
                   if decide (size s ≠ 0%nat)
                   then (λ _, 0%nat) <$> textSelection st
                   else textSelection st |}).
Proof.
  unfold setSelectedCells, readSelectedCells, readCellsState, setCellsState,
    removeAllRanges, mbind, M_bind, mret, M_ret. cbn.
  by destruct (decide (size _ ≠ 0%nat)).
Qed.

Lemma toggle_twice (s : gset CellId) cellId :
  let toggle := λ prev : gset CellId,
    if decide (cellId ∈ prev) then prev ∖ {[ cellId ]}
    else prev ∪ {[ cellId ]} in
  toggle (toggle s) = s.
Proof.
  cbn. destruct (decide (cellId ∈ s)) as [Hin|Hout].
  - destruct (decide (cellId ∈ s ∖ {[cellId]})) as [Hin'|_].
    + apply elem_of_difference in Hin' as [_ Hne].
      by destruct Hne; apply elem_of_singleton.
    + apply set_eq. intros x.
      rewrite elem_of_union, elem_of_difference, elem_of_singleton.
      destruct (decide (x = cellId)) as [->|]; intuition congruence.
  - destruct (decide (cellId ∈ s ∪ {[cellId]})) as [_|Hout'].
    + apply set_eq. intros x.
      rewrite elem_of_difference, elem_of_union, elem_of_singleton.
      destruct (decide (x = cellId)) as [->|]; intuition congruence.
    + destruct Hout'. apply elem_of_union_r. by apply elem_of_singleton.
Qed.

End EditorFacts.

(** ** The active cell and the selection *)

Section ActiveAndSelection.
Context {T : Type}.
Implicit Types (st : Editor T) (cell : Cell T) (i : Z) (cellId : CellId).

(** C5.  From every state and for every index [i], [setActiveCell i] ends
    with [activeCell = i] and an empty selection (of size 0), and
    [setActiveCellViaFocus i] ends with [activeCell = i] and the selection
    it started from.  Neither touches the notebook. *)
Theorem setActiveCell_clears_and_focus_keeps st i :
  (∃ st', exec (setActiveCell i) st = Some st'
     ∧ activeCell (cellsState st') = i
     ∧ selectedCells (cellsState st') = ∅
     ∧ size (selectedCells (cellsState st')) = 0%nat
     ∧ notebook st' = notebook st)
  ∧ (∃ st', exec (setActiveCellViaFocus i) st = Some st'
       ∧ activeCell (cellsState st') = i
       ∧ selectedCells (cellsState st') = selectedCells (cellsState st)
       ∧ notebook st' = notebook st).
Proof.
  split; eexists; (split; [reflexivity|]); cbn; repeat split.
Qed.

(** C6.  From every state, with any selection [S], and for every cell id,
    two calls of [toggleCellSelection] on that id in succession end with
    the selection [S] again; the active cell and the notebook are as
    before. *)
Theorem toggleCellSelection_involution st cellId :
  ∃ st1 st2,
    exec (toggleCellSelection cellId) st = Some st1
    ∧ exec (toggleCellSelection cellId) st1 = Some st2
    ∧ selectedCells (cellsState st2) = selectedCells (cellsState st)
    ∧ activeCell (cellsState st2) = activeCell (cellsState st)
    ∧ notebook st2 = notebook st.
Proof.
  unfold toggleCellSelection.
  eexists _, _. split; [|split].
  - eapply exec_run, setSelectedCells_run.
  - eapply exec_run, setSelectedCells_run.
  - cbn. split; [|done]. apply toggle_twice.
Qed.

(** A computation that ends with [setActiveCell] leaves, when it
    completes, no cell selected. *)
Lemma then_activate_clears {A} (m : M T A) (next : A → Z) st st' :
  exec (x ← m; setActiveCell (next x)) st = Some st' →
  selectedCells (cellsState st') = ∅.
Proof.
  unfold exec, mbind, M_bind. destruct (m st) as [[x st1]|]; [|done].
  rewrite setActiveCell_run. by intros [= <-].
Qed.

Lemma addAfterActiveCell_clears cell : clearsSelection (addAfterActiveCell cell).
Proof.
  intros st st'. unfold addAfterActiveCell, changeNotebook.
  unfold exec. erewrite bind_run; [|apply readActiveCell_run].
  unfold mbind at 1. unfold M_bind at 1.
  destruct (spliceCells _ _ _ st) as [[removed st1]|]; [|done].
  erewrite bind_run; [|apply readActiveCell_run].
  rewrite setActiveCell_run. by intros [= <-].
Qed.

(** C10.  Each operation that repositions the active cell after a change
    of the notebook ([addAfterActiveCell], [appendCell], and the actions
    [createAbove], [createBelow], [deleteBackward], [deleteForward] of a
    cell) leaves, whenever it completes, the selection empty, whatever the
    selection was before.  [appendCell] completes from every state,
    [addAfterActiveCell] from every state whose [activeCell] is -1 or an
    index of the notebook, and the four actions for every index [i] of the
    notebook. *)
Theorem lifecycle_operations_clear_selection cell i fresh :
  (clearsSelection (addAfterActiveCell cell)
   ∧ clearsSelection (appendCell cell)
   ∧ clearsSelection (createAbove (cellActions cell i) fresh)
   ∧ clearsSelection (createBelow (cellActions cell i) fresh)
   ∧ clearsSelection (deleteBackward (cellActions cell i))
   ∧ clearsSelection (deleteForward (cellActions cell i)))
  ∧ ∀ st,
      completes (appendCell cell) st
      ∧ (-1 ≤ activeCell (cellsState st) < JsArray.len (cells (notebook st)) →
         completes (addAfterActiveCell cell) st)
      ∧ (0 ≤ i < JsArray.len (cells (notebook st)) →
         completes (createAbove (cellActions cell i) fresh) st
         ∧ completes (createBelow (cellActions cell i) fresh) st
         ∧ completes (deleteBackward (cellActions cell i)) st
         ∧ completes (deleteForward (cellActions cell i)) st).
Proof.
  split.
  - split; [apply addAfterActiveCell_clears|].
    split.
    { intros st st'. unfold exec. rewrite appendCell_run. by intros [= <-]. }
    repeat split; intros st st'; apply then_activate_clears.
  - intros st. unfold completes. split; [|split].
    + eexists. eapply exec_run, appendCell_run.
    + intros Ha. eexists. by eapply exec_run, addAfterActiveCell_run.
    + intros Hi. repeat split; eexists; eapply exec_run.
      * apply insert_then_activate. lia.
      * apply insert_then_activate. lia.
      * by apply remove_then_activate.
      * by apply remove_then_activate.
Qed.

End ActiveAndSelection.

(** ** The actions of a cell *)

Section CellActionsFacts.
Context {T : Type}.
Implicit Types (st : Editor T) (cell : Cell T) (i : Z).

Lemma len_delete (l : list (Cell T)) i :
  0 ≤ i < JsArray.len l →
  JsArray.len (delete (Z.to_nat i) l) = JsArray.len l - 1.
Proof.
  unfold JsArray.len. intros Hi. rewrite length_delete; [lia|].
  apply lookup_lt_is_Some_2. lia.
Qed.

(** C4.  For every state and every index [i] of the notebook,
    [deleteBackward] of the cell at [i] removes the cell at index [i] (the
    other cells stay, in order) and ends with [activeCell = i - 1]; at
    [i = 0] this is [activeCell = -1]. *)
Theorem deleteBackward_at_index st cell i :
  0 ≤ i < JsArray.len (cells (notebook st)) →
  ∃ st', exec (deleteBackward (cellActions cell i)) st = Some st'
    ∧ cells (notebook st') = delete (Z.to_nat i) (cells (notebook st))
    ∧ JsArray.len (cells (notebook st'))
      = JsArray.len (cells (notebook st)) - 1
    ∧ activeCell (cellsState st') = i - 1
    ∧ (i = 0 → activeCell (cellsState st') = -1).
Proof.
  intros Hi. eexists. split.
  - eapply exec_run. by apply remove_then_activate.
  - cbn. split; [done|]. split; [by apply len_delete|]. split; [done|lia].
Qed.

(** C1, amended.  For every state and every index [i] of the notebook,
    [deleteForward] of the cell at [i] removes exactly the cell at index
    [i] (the length decreases by 1) and ends with [activeCell = i].  When
    [i] was not the last index this is [min i (len - 1)] over the cells
    that remain; when [i] was the last index it is the length of what
    remains, one past the new last index. *)
Theorem deleteForward_at_index st cell i :
  0 ≤ i < JsArray.len (cells (notebook st)) →
  ∃ st', exec (deleteForward (cellActions cell i)) st = Some st'
    ∧ cells (notebook st') = delete (Z.to_nat i) (cells (notebook st))
    ∧ JsArray.len (cells (notebook st'))
      = JsArray.len (cells (notebook st)) - 1
    ∧ activeCell (cellsState st') = i
    ∧ (i < JsArray.len (cells (notebook st)) - 1 →
       activeCell (cellsState st')
       = Z.min i (JsArray.len (cells (notebook st')) - 1))
    ∧ (i = JsArray.len (cells (notebook st)) - 1 →
       activeCell (cellsState st') = JsArray.len (cells (notebook st'))).
Proof.
  intros Hi. eexists. split.
  - eapply exec_run. by apply remove_then_activate.
  - cbn. rewrite len_delete by done. repeat split; lia.
Qed.

(** C8, amended.  For every state, the action [activateAbove] of the cell
    at index [i] sets [activeCell] to [i - 1] when [i > 0], and
    [activateBelow] sets it to [i + 1] when [i] is below the last index;
    this is a step of 1 from the former [activeCell] when the cell at [i]
    was the active one.  A move empties the selection.  [activateAbove] at
    index 0 (or below) and [activateBelow] at the last index (or beyond)
    leave the whole state as it was, and neither changes the notebook. *)
Theorem activateAbove_activateBelow st cell i :
  let n := JsArray.len (cells (notebook st)) in
  (∃ st', exec (activateAbove (cellActions cell i)) st = Some st'
     ∧ notebook st' = notebook st
     ∧ (i ≤ 0 → st' = st)
     ∧ (0 < i →
        activeCell (cellsState st') = i - 1
        ∧ selectedCells (cellsState st') = ∅
        ∧ (activeCell (cellsState st) = i →
           activeCell (cellsState st') = activeCell (cellsState st) - 1)))
  ∧ (∃ st', exec (activateBelow (cellActions cell i)) st = Some st'
       ∧ notebook st' = notebook st
       ∧ (n - 1 ≤ i → st' = st)
       ∧ (i < n - 1 →
          activeCell (cellsState st') = i + 1
          ∧ selectedCells (cellsState st') = ∅
          ∧ (activeCell (cellsState st) = i →
             activeCell (cellsState st') = activeCell (cellsState st) + 1))).
Proof.
  cbn. split.
  - destruct (decide (i > 0)) as [Hi|Hi].
    + eexists. split; [reflexivity|]. cbn. split; [done|].
      split; [lia|]. intros _. repeat split. lia.
    + exists st. split; [reflexivity|]. split; [done|]. split; [done|lia].
  - unfold mbind, M_bind, readCells.
    destruct (decide (i < JsArray.len (cells (notebook st)) - 1)) as [Hi|Hi].
    + eexists. split; [reflexivity|]. cbn. split; [done|].
      split; [lia|]. intros _. repeat split. lia.
    + exists st. split; [reflexivity|]. split; [done|]. split; [done|lia].
Qed.

End CellActionsFacts.

(** ** Adding a cell, or filling in a stem cell *)

Section AddOrReplace.
Context {T : Type}.
Implicit Types (st : Editor T) (cell c : Cell T) (i : Z).

Lemma replaceCellWith_in_range i cell st :
  0 ≤ i < JsArray.len (cells (notebook st)) →
  replaceCellWith i cell st
  = Some (tt, withCells (<[Z.to_nat i := cell]> (cells (notebook st))) st).
Proof.
  intros Hi. unfold replaceCellWith, changeNotebook, assignCell.
  erewrite bind_run; [|apply readCells_run].
  unfold JsArray.set.
  destruct (decide (i < 0)); [lia|].
  destruct (decide (i < JsArray.len (cells (notebook st)))); [done|lia].
Qed.

(** What [addOrReplaceActiveCell] does, by the cell at the active index. *)
Lemma addOrReplaceActiveCell_run cell st :
  addOrReplaceActiveCell cell st
  = match JsArray.get (cells (notebook st)) (activeCell (cellsState st)) with
    | Some c =>
        match cell_tag c with
        | TagStem => replaceCellWith (activeCell (cellsState st)) cell st
        | _ => addAfterActiveCell cell st
        end
    | None => addAfterActiveCell cell st
    end.
Proof.
  unfold addOrReplaceActiveCell.
  erewrite bind_run; [|apply readCells_run].
  erewrite bind_run; [|apply readActiveCell_run].
  destruct (JsArray.get _ _) as [c|]; [|done].
  by destruct (cell_tag c).
Qed.

(** C3, amended.  For every state: when the active index holds a stem
    cell, [addOrReplaceActiveCell cell] leaves the length unchanged, puts
    [cell] at the active index and leaves the signal ([activeCell], the
    selection) as before; when it holds a rich-text or a formal cell, or
    when there is no active cell, [activeCell] being -1, the length grows by
    1, [activeCell] advances by 1 and [cell] is at the new [activeCell]. *)
Theorem addOrReplaceActiveCell_cases st cell :
  let l := cells (notebook st) in
  let a := activeCell (cellsState st) in
  (∀ c, JsArray.get l a = Some c → cell_tag c = TagStem →
     ∃ st', exec (addOrReplaceActiveCell cell) st = Some st'
       ∧ cells (notebook st') = <[Z.to_nat a := cell]> l
       ∧ JsArray.len (cells (notebook st')) = JsArray.len l
       ∧ JsArray.get (cells (notebook st')) a = Some cell
       ∧ cellsState st' = cellsState st)
  ∧ (∀ c, JsArray.get l a = Some c → cell_tag c ≠ TagStem →
     ∃ st', exec (addOrReplaceActiveCell cell) st = Some st'
       ∧ JsArray.len (cells (notebook st')) = JsArray.len l + 1
       ∧ activeCell (cellsState st') = a + 1
       ∧ JsArray.get (cells (notebook st')) (a + 1) = Some cell
       ∧ delete (Z.to_nat (a + 1)) (cells (notebook st')) = l)
  ∧ (a = -1 →
     ∃ st', exec (addOrReplaceActiveCell cell) st = Some st'
       ∧ cells (notebook st') = cell :: l
       ∧ JsArray.len (cells (notebook st')) = JsArray.len l + 1
       ∧ activeCell (cellsState st') = a + 1
       ∧ JsArray.get (cells (notebook st')) (a + 1) = Some cell).
Proof.
  cbn.
  set (l := cells (notebook st)). set (a := activeCell (cellsState st)).
  pose proof (len_nonneg l) as Hl.
  assert (∀ k : nat, (k ≤ length l)%nat →
            JsArray.len (take k l ++ cell :: drop k l) = JsArray.len l + 1)
    as Hlen.
  { intros k Hk. rewrite <- (take_drop k l) at 3.
    rewrite !len_app. unfold JsArray.len. cbn [length]. lia. }
  pose proof (addOrReplaceActiveCell_run cell st) as Hrun. fold l a in Hrun.
  split; [|split].
  - intros c Hget Htag. rewrite Hget, Htag in Hrun.
    apply get_Some in Hget as [Ha Hc].
    rewrite replaceCellWith_in_range in Hrun by done. fold l in Hrun.
    eexists. split; [by eapply exec_run|]. cbn. split; [done|].
    assert (JsArray.len (<[Z.to_nat a:=cell]> l) = JsArray.len l) as Hlen'.
    { unfold JsArray.len. by rewrite length_insert. }
    split; [done|]. split; [|done].
    apply get_Some. rewrite Hlen'. split; [done|].
    apply list_lookup_insert_eq. unfold JsArray.len in Ha. lia.
  - intros c Hget Htag. rewrite Hget in Hrun.
    apply get_Some in Hget as [Ha Hc].
    assert ((Z.to_nat (a + 1) ≤ length l)%nat) as Ha1
      by (unfold JsArray.len in Ha; lia).
    assert (addOrReplaceActiveCell cell st = addAfterActiveCell cell st)
      as Hadd by (by destruct (cell_tag c)).
    rewrite addAfterActiveCell_run in Hadd by (fold l a; lia).
    fold l a in Hadd. rewrite splice_insert in Hadd by lia.
    eexists. split; [by eapply exec_run|]. cbn.
    split; [by apply Hlen|]. split; [done|].
    split; [|by apply (delete_insert_middle l)].
    apply get_Some. rewrite Hlen by done. split; [lia|].
    by apply (lookup_insert_middle l).
  - intros Ha.
    assert (JsArray.get l a = None) as Hget by (apply get_None; lia).
    rewrite Hget in Hrun.
    rewrite addAfterActiveCell_run in Hrun by (fold l a; lia).
    fold l a in Hrun. rewrite Ha in Hrun. rewrite splice_insert in Hrun by lia.
    eexists. split; [by eapply exec_run|]. cbn. rewrite drop_0, Ha.
    split; [done|]. split; [|done].
    exact (Hlen 0%nat (Nat.le_0_l _)).
Qed.

End AddOrReplace.

(** ** Drag and drop *)

Section DragAndDrop.
Context {T : Type}.
Implicit Types (st : Editor T) (cell c : Cell T) (l : list (Cell T)).
Implicit Types (cellId sourceId targetId : CellId) (d source : DragData).

Lemma hasId_true cellId c : hasId cellId c = true ↔ cell_id c = cellId.
Proof. unfold hasId. apply bool_decide_eq_true. Qed.

Lemma hasId_false cellId c : hasId cellId c = false ↔ cell_id c ≠ cellId.
Proof. unfold hasId. apply bool_decide_eq_false. Qed.

(** An id that names no cell of the sequence is looked up in vain. *)
Lemma findIndex_unresolved cellId l :
  cellId ∉ ids l → JsArray.findIndex (hasId cellId) l = -1.
Proof.
  intros Hout.
  destruct (findIndex_spec (hasId cellId) l) as [[Hr _]|[_ (c & Hc & Hp)]].
  - done.
  - destruct Hout. apply hasId_true in Hp as <-.
    apply list_elem_of_fmap. exists c. split; [done|].
    by apply list_elem_of_lookup_2 in Hc.
Qed.

(** An index that [findIndex] gives for an id holds a cell of that id. *)
Lemma findIndex_resolved cellId l :
  0 ≤ JsArray.findIndex (hasId cellId) l →
  let r := JsArray.findIndex (hasId cellId) l in
  r < JsArray.len l ∧ ∃ c, l !! Z.to_nat r = Some c ∧ cell_id c = cellId.
Proof.
  intros Hr.
  destruct (findIndex_spec (hasId cellId) l) as [[Hn _]|[Hlt (c & Hc & Hp)]].
  - lia.
  - cbn. split; [lia|]. exists c. split; [done|]. by apply hasId_true.
Qed.

Lemma some_hasId_unresolved cellId l :
  cellId ∉ ids l → JsArray.some (hasId cellId) l = false.
Proof.
  intros Hout. unfold JsArray.some. apply not_true_is_false. intros Hex.
  apply existsb_exists in Hex as (c & Hc & Hp).
  destruct Hout. apply hasId_true in Hp as <-.
  apply list_elem_of_fmap. exists c. split; [done|]. by apply list_elem_of_In.
Qed.

(** C7.  For every state and every drop whose source payload or whose
    target payload does not resolve to a cell of the notebook (the payload
    is not that of a notebook cell, there is no drop target, or the id
    names no cell of the sequence), [onDrop] ends without an error and
    leaves the whole state, and so the sequence of cells, exactly as it
    was; and the monitor does not accept a source that does not resolve. *)
Theorem onDrop_unresolved_is_noop st dropTargets source :
  let l := cells (notebook st) in
  (¬ resolves source l
   ∨ match head dropTargets with
     | Some target => ¬ resolves target l
     | None => True
     end) →
  onDrop dropTargets source st = Some (tt, st)
  ∧ (¬ resolves source l → canMonitor source st = Some (false, st)).
Proof.
  cbn. intros Hun. split.
  - unfold onDrop.
    destruct (head dropTargets) as [[targetId edge|]|]; [|done|done].
    destruct source as [sourceId e0|]; [|done].
    erewrite bind_run; [|apply readCells_run].
    destruct (decide _) as [_|Hres]; [done|].
    destruct Hres. cbn in Hun. destruct Hun as [Hs|Ht].
    + left. rewrite findIndex_unresolved by done. lia.
    + right. rewrite findIndex_unresolved by done. lia.
  - intros Hs. unfold canMonitor.
    erewrite bind_run; [|apply readCells_run].
    destruct source as [sourceId e0|]; [|done].
    cbn in Hs. by rewrite some_hasId_unresolved.
Qed.

(** The destination of a move between two different indices. *)
Lemma reorder_destination (a b : Z) (edge : Edge) :
  0 ≤ a → 0 ≤ b → a ≠ b →
  getReorderDestinationIndex a b (Some edge) Vertical
  = (if decide (a < b) then b - 1 else b)
    + match edge with EdgeTop => 0 | EdgeBottom => 1 end.
Proof.
  intros Ha Hb Hab. unfold getReorderDestinationIndex.
  destruct (decide (a = -1 ∨ b = -1)); [lia|].
  destruct (decide (a = b)); [done|].
  unfold bool_decide. destruct (decide_rel Z.lt a b), (decide (a < b)), edge;
    lia.
Qed.

(** The destination of any move is an index of the list without the
    source. *)
Lemma reorder_destination_range (a b n : Z) (edge : option Edge) :
  0 ≤ a < n → 0 ≤ b < n →
  0 ≤ getReorderDestinationIndex a b edge Vertical ≤ n - 1.
Proof.
  intros Ha Hb. unfold getReorderDestinationIndex.
  destruct (decide (a = -1 ∨ b = -1)); [lia|].
  destruct (decide (a = b)); [lia|].
  destruct edge as [[|]|]; [| |lia];
    unfold bool_decide; destruct (decide_rel Z.lt a b); lia.
Qed.

Lemma onDrop_resolved_run st sourceId e0 targetId edge rest moved :
  let l := cells (notebook st) in
  let a := JsArray.findIndex (hasId sourceId) l in
  let b := JsArray.findIndex (hasId targetId) l in
  0 ≤ a → 0 ≤ b → l !! Z.to_nat a = Some moved →
  onDrop (CellDragData targetId edge :: rest) (CellDragData sourceId e0) st
  = Some (tt, withCells
                (JsArray.splice (delete (Z.to_nat a) l)
                   (getReorderDestinationIndex a b edge Vertical) 0
                   [deepCopyJSON moved]).2 st).
Proof.
  cbn. intros Ha Hb Hmoved.
  destruct (findIndex_resolved sourceId _ Ha) as [Ha' _].
  destruct (findIndex_resolved targetId _ Hb) as [Hb' _].
  pose proof (reorder_destination_range _ _ _ edge (conj Ha Ha') (conj Hb Hb'))
    as Hdest.
  unfold onDrop. cbn [head].
  erewrite bind_run; [|apply readCells_run].
  destruct (decide _) as [|_]; [lia|].
  unfold changeNotebook.
  erewrite bind_run; [|apply spliceCells_run; lia].
  rewrite (splice_remove _ _ moved) by done. cbn [fst snd].
  erewrite bind_run; [|apply spliceCells_run; cbn [withCells notebook cells];
                       rewrite ?len_delete by lia; lia].
  done.
Qed.

Lemma occurrences_Permutation cellId l l' :
  l ≡ₚ l' → occurrences cellId l = occurrences cellId l'.
Proof. intros Hp. unfold occurrences. by rewrite Hp. Qed.

Lemma occurrences_absent cellId l :
  cellId ∉ ids l → occurrences cellId l = 0%nat.
Proof.
  unfold occurrences, ids. induction l as [|c l IH]; [done|].
  rewrite fmap_cons, not_elem_of_cons. intros [Hne Hout].
  rewrite filter_cons_False by done. by apply IH.
Qed.

Lemma occurrences_NoDup cellId l :
  NoDup (ids l) → cellId ∈ ids l → occurrences cellId l = 1%nat.
Proof.
  unfold ids. induction l as [|c l IH]; intros Hnd Hin.
  - by apply elem_of_nil in Hin.
  - rewrite fmap_cons in Hnd, Hin. apply NoDup_cons in Hnd as [Hc Hnd].
    unfold occurrences. destruct (decide (cell_id c = cellId)) as [<-|Hne].
    + rewrite filter_cons_True by done. cbn. f_equal.
      by apply occurrences_absent.
    + rewrite filter_cons_False by done. apply IH; [done|].
      apply elem_of_cons in Hin as [Heq|Hin]; [congruence|done].
Qed.

(** C2.  For every state and every drop whose source id resolves to the
    index [a] and whose target id resolves to the index [b], with [a ≠ b],
    and with the edge [before] ([EdgeTop]) or [after] ([EdgeBottom]),
    [onDrop] ends and leaves the signal as it was; the cell that was at
    [a], with the source id, is at the destination index computed from
    [a], [b] and the edge, which is an index of the sequence; the other
    cells are the same and in the same order (the sequence without the
    destination index is the old one without index [a]); the target cell is
    just after the moved cell for [before] and just before it for [after];
    every id occurs as often as before, and the moved id exactly once when
    the ids of the notebook are distinct. *)
Theorem onDrop_reorders st sourceId e0 targetId edge rest :
  let l := cells (notebook st) in
  let a := JsArray.findIndex (hasId sourceId) l in
  let b := JsArray.findIndex (hasId targetId) l in
  let dest := getReorderDestinationIndex a b (Some edge) Vertical in
  0 ≤ a → 0 ≤ b → a ≠ b →
  ∃ st' moved target,
    exec (onDrop (CellDragData targetId (Some edge) :: rest)
            (CellDragData sourceId e0)) st = Some st'
    ∧ cellsState st' = cellsState st
    ∧ JsArray.get l a = Some moved ∧ cell_id moved = sourceId
    ∧ JsArray.get l b = Some target ∧ cell_id target = targetId
    ∧ dest = (if decide (a < b) then b - 1 else b)
             + match edge with EdgeTop => 0 | EdgeBottom => 1 end
    ∧ 0 ≤ dest < JsArray.len l
    ∧ JsArray.len (cells (notebook st')) = JsArray.len l
    ∧ JsArray.get (cells (notebook st')) dest = Some (deepCopyJSON moved)
    ∧ cell_id (deepCopyJSON moved) = sourceId
    ∧ delete (Z.to_nat dest) (cells (notebook st')) = delete (Z.to_nat a) l
    ∧ JsArray.get (cells (notebook st'))
        match edge with EdgeTop => dest + 1 | EdgeBottom => dest - 1 end
      = Some target
    ∧ (∀ cellId,
         occurrences cellId (cells (notebook st')) = occurrences cellId l)
    ∧ (NoDup (ids l) →
       NoDup (ids (cells (notebook st')))
       ∧ occurrences sourceId (cells (notebook st')) = 1%nat).
Proof.
  cbn. set (l := cells (notebook st)).
  set (a := JsArray.findIndex (hasId sourceId) l).
  set (b := JsArray.findIndex (hasId targetId) l).
  intros Ha Hb Hab.
  destruct (findIndex_resolved sourceId l Ha) as (Ha' & moved & Hmoved & Hid).
  destruct (findIndex_resolved targetId l Hb) as (Hb' & target & Htarget & Htid).
  fold a in Ha', Hmoved. fold b in Hb', Htarget.
  pose proof (reorder_destination a b edge Ha Hb Hab) as Hdest.
  set (dest := getReorderDestinationIndex a b (Some edge) Vertical) in *.
  set (l1 := delete (Z.to_nat a) l).
  assert (JsArray.len l1 = JsArray.len l - 1) as Hlen1
    by (apply len_delete; lia).
  assert (0 ≤ dest ≤ JsArray.len l1) as Hrange.
  { rewrite Hdest, Hlen1. destruct (decide (a < b)), edge; lia. }
  pose proof (onDrop_resolved_run st sourceId e0 targetId (Some edge) rest
                moved Ha Hb Hmoved) as Hrun.
  fold l a b dest l1 in Hrun. rewrite splice_insert in Hrun by done.
  set (d := Z.to_nat dest) in *.
  assert ((d ≤ length l1)%nat) as Hd by (unfold JsArray.len in Hrange; lia).
  set (l' := take d l1 ++ [deepCopyJSON moved] ++ drop d l1) in *.
  assert (l' ≡ₚ l) as Hperm.
  { unfold l'. simpl. rewrite <- Permutation_middle, take_drop.
    unfold deepCopyJSON, l1. symmetry. by apply delete_Permutation. }
  assert (JsArray.len l' = JsArray.len l) as Hlen'.
  { unfold JsArray.len. by rewrite Hperm. }
  exists (withCells l' st), moved, target.
  split; [by eapply exec_run|]. cbn [withCells notebook cells cellsState].
  split; [done|].
  split; [apply get_Some; split; [lia|done]|]. split; [done|].
  split; [apply get_Some; split; [lia|done]|]. split; [done|].
  split; [done|]. split; [lia|]. split; [done|].
  split; [apply get_Some; split; [lia|by apply lookup_insert_middle]|].
  split; [done|].
  split; [by apply delete_insert_middle|].
  split.
  { apply get_Some.
    assert (l1 !! Z.to_nat (if decide (a < b) then b - 1 else b) = Some target)
      as Ht1.
    { unfold l1. destruct (decide (a < b)).
      - rewrite list_lookup_delete_ge by lia.
        by replace (S (Z.to_nat (b - 1))) with (Z.to_nat b) by lia.
      - by rewrite list_lookup_delete_lt by lia. }
    split; [rewrite Hlen'; destruct (decide (a < b)), edge; lia|].
    unfold l'. destruct edge.
    - rewrite lookup_app_r; rewrite length_take; [|lia].
      replace (Z.to_nat (dest + 1) - d `min` length l1)%nat with 1%nat by lia.
      change (([deepCopyJSON moved] ++ drop d l1) !! 1%nat)
        with (drop d l1 !! 0%nat).
      rewrite lookup_drop, Nat.add_0_r. unfold d. rewrite Hdest.
      by rewrite Z.add_0_r.
    - assert (1 ≤ dest) by (rewrite Hdest; destruct (decide (a < b)); lia).
      rewrite lookup_app_l; [|rewrite length_take; unfold d; lia].
      rewrite lookup_take_lt by (unfold d; lia).
      by replace (dest - 1) with (if decide (a < b) then b - 1 else b) by lia. }
  split; [intros cellId; by apply occurrences_Permutation|].
  intros Hnd.
  assert (ids l' ≡ₚ ids l) as Hids by (unfold ids; by rewrite Hperm).
  split; [by rewrite Hids|].
  rewrite (occurrences_Permutation _ _ _ Hperm).
  apply occurrences_NoDup; [done|].
  apply list_elem_of_fmap. exists moved. split; [done|].
  by apply list_elem_of_lookup_2 in Hmoved.
Qed.

End DragAndDrop.

(** ** Cell constructors and commands *)

Section Commands.
Context {T : Type}.
Implicit Types (userAgent : string) (L : list (CellConstructor T)).

(** C9.  For every list [L] of constructors that the caller supplies, the
    constructors of the editor are a built-in constructor, named "Text" and
    constructing a new rich-text cell, followed by the elements of [L] in
    order; the insert commands are derived from these constructors one by
    one, the completion of each running [addOrReplaceActiveCell] on the
    cell that its constructor constructs; and the replace commands for an
    index [i] likewise, each running [replaceCellWith i] on that cell. *)
Theorem cellConstructors_and_commands userAgent L i :
  (∃ text,
     cellConstructors userAgent L = text :: L
     ∧ name text = "Text"
     ∧ ∀ fresh, construct text fresh = newRichTextCell fresh)
  ∧ Forall2 (derivedFrom addOrReplaceActiveCell)
      (cellConstructors userAgent L) (insertCommands userAgent L)
  ∧ Forall2 (derivedFrom (replaceCellWith i))
      (cellConstructors userAgent L) (replaceCommands userAgent L i).
Proof.
  split; [by eexists|].
  unfold insertCommands, replaceCommands.
  split; apply Forall2_fmap_r, Forall_Forall2_diag, Forall_forall;
    intros cc _; repeat split; eexists; by split.
Qed.

End Commands.

(** ** Runs on the sample notebook *)

(** The scenario of the specification: from the empty notebook, a stem cell
    is appended and filled in as a rich-text cell; a stem cell is created
    below it; that cell is dragged to the top edge of the first.  The two
    cells end in reverse order, each id once, with [activeCell = 1]. *)
Lemma scenario_from_empty_notebook :
  ∃ st1 st2 st3 st4 : Editor string,
    exec (appendCell (newStemCell "u1")) (initEditor {| cells := [] |} None)
    = Some st1
    ∧ cells (notebook st1) = [StemCell "u1"]
    ∧ activeCell (cellsState st1) = 0
    ∧ exec (addOrReplaceActiveCell (RichTextCell "u2" EmptyString)) st1 = Some st2
    ∧ cells (notebook st2) = [RichTextCell "u2" EmptyString]
    ∧ activeCell (cellsState st2) = 0
    ∧ exec (createBelow (cellActions (RichTextCell "u2" EmptyString) 0) "u3") st2
      = Some st3
    ∧ cells (notebook st3) = [RichTextCell "u2" EmptyString; StemCell "u3"]
    ∧ activeCell (cellsState st3) = 1
    ∧ exec (onDrop [CellDragData "u2" (Some EdgeTop)]
              (CellDragData "u3" None)) st3 = Some st4
    ∧ cells (notebook st4) = [StemCell "u3"; RichTextCell "u2" EmptyString]
    ∧ activeCell (cellsState st4) = 1.
Proof.
  eexists _, _, _, _. repeat (split; [reflexivity|]). reflexivity.
Qed.

(** Arithmetic on the lengths of given lists. *)
Ltac len_lia := unfold JsArray.len; simpl; lia.

Lemma sampleCells_ids_distinct : NoDup (ids sampleCells).
Proof. apply (bool_decide_unpack _). by vm_compute. Qed.

(** [deleteBackward] of the first cell: no cell is active afterwards. *)
Lemma deleteBackward_at_index_witness :
  0 ≤ 0 < JsArray.len (cells (notebook (sampleEditor 0)))
  ∧ ∃ st', exec (deleteBackward (cellActions (StemCell "c0") 0))
             (sampleEditor 0) = Some st'
      ∧ cells (notebook st') = [RichTextCell "c1" "text"; FormalCell "c2" "ob"]
      ∧ activeCell (cellsState st') = -1.
Proof.
  assert (0 ≤ 0 < JsArray.len (cells (notebook (sampleEditor 0)))) as Hi
    by len_lia.
  split; [exact Hi|].
  destruct (deleteBackward_at_index (sampleEditor 0) (StemCell "c0") 0 Hi)
    as (st' & Hexec & Hcells & _ & _ & Hactive).
  exists st'. split; [exact Hexec|]. split; [exact Hcells|].
  apply Hactive. reflexivity.
Defined.

(** [deleteForward] of the second cell: the third slides into its place. *)
Lemma deleteForward_at_index_witness :
  0 ≤ 1 < JsArray.len (cells (notebook (sampleEditor 1)))
  ∧ ∃ st', exec (deleteForward (cellActions (RichTextCell "c1" "text") 1))
             (sampleEditor 1) = Some st'
      ∧ cells (notebook st') = [StemCell "c0"; FormalCell "c2" "ob"]
      ∧ activeCell (cellsState st') = 1
      ∧ activeCell (cellsState st')
        = Z.min 1 (JsArray.len (cells (notebook st')) - 1).
Proof.
  assert (0 ≤ 1 < JsArray.len (cells (notebook (sampleEditor 1)))) as Hi
    by len_lia.
  split; [exact Hi|].
  destruct (deleteForward_at_index (sampleEditor 1) (RichTextCell "c1" "text")
              1 Hi) as (st' & Hexec & Hcells & _ & Hactive & Hmin & _).
  exists st'. split; [exact Hexec|]. split; [exact Hcells|].
  split; [exact Hactive|]. apply Hmin. len_lia.
Defined.

(** C1 as stated fails at the last index: after [deleteForward] of the
    third of three cells [activeCell] is 2, not [min 2 (2 - 1)]; and after
    [deleteForward] of the only cell of a notebook, which is then empty,
    [activeCell] is 0, not -1. *)
Lemma deleteForward_last_index_counterexample :
  (0 ≤ 2 < JsArray.len (cells (notebook (sampleEditor 2)))
   ∧ ∃ st', exec (deleteForward (cellActions (FormalCell "c2" "ob") 2))
              (sampleEditor 2) = Some st'
       ∧ JsArray.len (cells (notebook st')) = 2
       ∧ activeCell (cellsState st') = 2
       ∧ activeCell (cellsState st')
         ≠ Z.min 2 (JsArray.len (cells (notebook st')) - 1))
  ∧ (let st := initEditor {| cells := [StemCell "c0" : Cell string] |} None in
     0 ≤ 0 < JsArray.len (cells (notebook st))
     ∧ ∃ st', exec (deleteForward (cellActions (StemCell "c0") 0)) st
              = Some st'
         ∧ cells (notebook st') = []
         ∧ activeCell (cellsState st') = 0
         ∧ activeCell (cellsState st') ≠ -1
         ∧ activeCell (cellsState st')
           ≠ Z.min 0 (JsArray.len (cells (notebook st')) - 1)).
Proof.
  split.
  - split; [len_lia|]. eexists. split; [reflexivity|]. len_lia.
  - split; [len_lia|]. eexists. split; [reflexivity|].
    repeat split; len_lia.
Qed.

(** A drop of the third cell on the top edge of the first: the third cell
    comes first, the others follow in their order. *)
Lemma onDrop_reorders_witness :
  0 ≤ JsArray.findIndex (hasId "c2") sampleCells
  ∧ 0 ≤ JsArray.findIndex (hasId "c0") sampleCells
  ∧ JsArray.findIndex (hasId "c2") sampleCells
    ≠ JsArray.findIndex (hasId "c0") sampleCells
  ∧ ∃ st', exec (onDrop [CellDragData "c0" (Some EdgeTop)]
                   (CellDragData "c2" None)) (sampleEditor 0) = Some st'
      ∧ JsArray.get (cells (notebook st')) 0 = Some (FormalCell "c2" "ob")
      ∧ JsArray.get (cells (notebook st')) 1 = Some (StemCell "c0")
      ∧ delete 0%nat (cells (notebook st'))
        = [StemCell "c0"; RichTextCell "c1" "text"]
      ∧ occurrences "c2" (cells (notebook st')) = 1%nat.
Proof.
  assert (0 ≤ JsArray.findIndex (hasId "c2") sampleCells) as Ha
    by (vm_compute; discriminate).
  assert (0 ≤ JsArray.findIndex (hasId "c0") sampleCells) as Hb
    by (vm_compute; discriminate).
  assert (JsArray.findIndex (hasId "c2") sampleCells
          ≠ JsArray.findIndex (hasId "c0") sampleCells) as Hab
    by (vm_compute; discriminate).
  split; [exact Ha|]. split; [exact Hb|]. split; [exact Hab|].
  destruct (onDrop_reorders (sampleEditor 0) "c2" None "c0" EdgeTop []
              Ha Hb Hab)
    as (st' & moved & target & Hexec & _ & Hmoved & _ & Htarget & _ & _ & _
        & _ & Hdest & _ & Hothers & Hnext & _ & Hcount).
  exists st'. split; [exact Hexec|].
  injection Hmoved as <-. injection Htarget as <-.
  repeat split; [exact Hdest|exact Hnext|exact Hothers|].
  apply Hcount, sampleCells_ids_distinct.
Defined.

(** A drop on a target whose id names no cell of the notebook. *)
Lemma onDrop_unresolved_is_noop_witness :
  ¬ resolves (CellDragData "gone" (Some EdgeTop)) sampleCells
  ∧ onDrop [CellDragData "gone" (Some EdgeTop)] (CellDragData "c0" None)
      (sampleEditor 0) = Some (tt, sampleEditor 0).
Proof.
  assert (¬ resolves (T:=string) (CellDragData "gone" (Some EdgeTop))
              sampleCells) as Hgone.
  { unfold resolves. apply (bool_decide_unpack _). by vm_compute. }
  split; [exact Hgone|].
  apply (onDrop_unresolved_is_noop (sampleEditor 0)
           [CellDragData "gone" (Some EdgeTop)] (CellDragData "c0" None)).
  right. exact Hgone.
Defined.

(** [addOrReplaceActiveCell] on the stem cell, on the rich-text cell, and
    with no active cell. *)
Lemma addOrReplaceActiveCell_cases_witness :
  (∃ st', exec (addOrReplaceActiveCell (FormalCell "new" "mor"))
            (sampleEditor 0) = Some st'
     ∧ cells (notebook st')
       = [FormalCell "new" "mor"; RichTextCell "c1" "text";
          FormalCell "c2" "ob"]
     ∧ cellsState st' = cellsState (sampleEditor 0))
  ∧ (∃ st', exec (addOrReplaceActiveCell (FormalCell "new" "mor"))
              (sampleEditor 1) = Some st'
       ∧ JsArray.len (cells (notebook st')) = 4
       ∧ activeCell (cellsState st') = 2
       ∧ JsArray.get (cells (notebook st')) 2 = Some (FormalCell "new" "mor"))
  ∧ (∃ st', exec (addOrReplaceActiveCell (FormalCell "new" "mor"))
              (sampleEditor (-1)) = Some st'
       ∧ activeCell (cellsState st') = 0
       ∧ cells (notebook st') = FormalCell "new" "mor" :: sampleCells).
Proof.
  split; [|split].
  - destruct (addOrReplaceActiveCell_cases (sampleEditor 0)
                (FormalCell "new" "mor")) as (Hstem & _).
    destruct (Hstem (StemCell "c0") eq_refl eq_refl)
      as (st' & Hexec & Hcells & _ & _ & Hsig).
    exists st'. split; [exact Hexec|]. split; [exact Hcells|exact Hsig].
  - destruct (addOrReplaceActiveCell_cases (sampleEditor 1)
                (FormalCell "new" "mor")) as (_ & Htext & _).
    assert (cell_tag (RichTextCell (T:=string) "c1" "text") ≠ TagStem) as Htag
      by discriminate.
    destruct (Htext (RichTextCell "c1" "text") eq_refl Htag)
      as (st' & Hexec & Hlen & Hactive & Hnew & _).
    exists st'. split; [exact Hexec|]. split; [exact Hlen|].
    split; [exact Hactive|exact Hnew].
  - destruct (addOrReplaceActiveCell_cases (sampleEditor (-1))
                (FormalCell "new" "mor")) as (_ & _ & Hnone).
    destruct (Hnone eq_refl) as (st' & Hexec & Hcells & _ & Hactive & _).
    exists st'. split; [exact Hexec|]. split; [exact Hactive|exact Hcells].
Defined.

(** C3 as stated fails for an active index beyond the end.  From a
    notebook of one cell, [deleteForward] of that cell leaves an empty
    notebook with [activeCell = 0], no active cell; there
    [addOrReplaceActiveCell] raises an error, so that no cell is added and
    [activeCell] does not advance.  Likewise after [deleteForward] of the
    last of the three sample cells. *)
Lemma addOrReplaceActiveCell_beyond_end_counterexample :
  (let st := initEditor {| cells := [StemCell "c0" : Cell string] |} None in
   ∃ st1,
     exec (deleteForward (cellActions (StemCell "c0") 0)) st = Some st1
     ∧ JsArray.get (cells (notebook st1)) (activeCell (cellsState st1)) = None
     ∧ exec (addOrReplaceActiveCell (FormalCell "new" "mor")) st1 = None
     ∧ ¬ ∃ st2,
           exec (addOrReplaceActiveCell (FormalCell "new" "mor")) st1
           = Some st2
           ∧ JsArray.len (cells (notebook st2))
             = JsArray.len (cells (notebook st1)) + 1)
  ∧ (∃ st1,
       exec (deleteForward (cellActions (FormalCell "c2" "ob") 2))
         (sampleEditor 2) = Some st1
       ∧ JsArray.get (cells (notebook st1)) (activeCell (cellsState st1))
         = None
       ∧ exec (addOrReplaceActiveCell (FormalCell "new" "mor")) st1 = None).
Proof.
  split.
  - eexists. split; [reflexivity|]. split; [reflexivity|].
    split; [reflexivity|]. intros (st2 & Hexec & _). discriminate Hexec.
  - eexists. split; [reflexivity|]. split; reflexivity.
Qed.

(** [deleteForward] of the second sample cell completes and leaves no cell
    selected; so does [addAfterActiveCell] with the second cell active. *)
Lemma lifecycle_operations_clear_selection_witness :
  (0 ≤ 1 < JsArray.len (cells (notebook (sampleEditor 1)))
   ∧ ∃ st', exec (deleteForward (cellActions (RichTextCell "c1" "text") 1))
              (sampleEditor 1) = Some st'
       ∧ selectedCells (cellsState st') = ∅)
  ∧ (-1 ≤ activeCell (cellsState (sampleEditor 1))
        < JsArray.len (cells (notebook (sampleEditor 1)))
     ∧ ∃ st', exec (addAfterActiveCell (FormalCell "new" "mor"))
                (sampleEditor 1) = Some st'
         ∧ selectedCells (cellsState st') = ∅).
Proof.
  destruct (lifecycle_operations_clear_selection (T:=string)
              (RichTextCell "c1" "text") 1 "s")
    as [(_ & _ & _ & _ & _ & Hforward) Hcompletes].
  destruct (lifecycle_operations_clear_selection (T:=string)
              (FormalCell "new" "mor") 1 "s")
    as [(Hadd & _) Hcompletes'].
  assert (0 ≤ 1 < JsArray.len (cells (notebook (sampleEditor 1)))) as Hi
    by len_lia.
  assert (-1 ≤ activeCell (cellsState (sampleEditor 1))
             < JsArray.len (cells (notebook (sampleEditor 1)))) as Ha
    by len_lia.
  split.
  - split; [exact Hi|].
    destruct (Hcompletes (sampleEditor 1)) as (_ & _ & Hactions).
    destruct (Hactions Hi) as (_ & _ & _ & [st' Hexec]).
    exists st'. split; [exact Hexec|exact (Hforward _ _ Hexec)].
  - split; [exact Ha|].
    destruct (Hcompletes' (sampleEditor 1)) as (_ & Hafter & _).
    destruct (Hafter Ha) as [st' Hexec].
    exists st'. split; [exact Hexec|exact (Hadd _ _ Hexec)].
Defined.

(** [activateAbove] of the active second cell, and [activateBelow] of the
    last cell. *)
Lemma activateAbove_activateBelow_witness :
  (∃ st', exec (activateAbove (cellActions (RichTextCell "c1" "text") 1))
            (sampleEditor 1) = Some st'
     ∧ activeCell (cellsState st') = 0
     ∧ activeCell (cellsState st') = activeCell (cellsState (sampleEditor 1)) - 1
     ∧ notebook st' = notebook (sampleEditor 1))
  ∧ (∃ st', exec (activateBelow (cellActions (FormalCell "c2" "ob") 2))
              (sampleEditor 2) = Some st'
       ∧ st' = sampleEditor 2).
Proof.
  split.
  - destruct (activateAbove_activateBelow (sampleEditor 1)
                (RichTextCell "c1" "text") 1)
      as [(st' & Hexec & Hnb & _ & Hmove) _].
    assert (0 < 1) as Hpos by lia.
    destruct (Hmove Hpos) as (Hactive & _ & Hstep).
    exists st'. split; [exact Hexec|]. split; [exact Hactive|].
    split; [exact (Hstep eq_refl)|exact Hnb].
  - destruct (activateAbove_activateBelow (sampleEditor 2)
                (FormalCell "c2" "ob") 2)
      as [_ (st' & Hexec & _ & Hstay & _)].
    exists st'. split; [exact Hexec|]. apply Hstay. len_lia.
Defined.

(** C8 as stated fails when the action is not that of the active cell:
    with the first cell active, [activateAbove] of the third cell ends with
    [activeCell = 1], which is not a step down from 0, and with the third
    cell active, [activateBelow] of the first cell ends with
    [activeCell = 1], which is not a step up from 2. *)
Lemma activate_from_inactive_cell_counterexample :
  (∃ st', exec (activateAbove (cellActions (FormalCell "c2" "ob") 2))
            (sampleEditor 0) = Some st'
     ∧ activeCell (cellsState st') = 1
     ∧ activeCell (cellsState st')
       ≠ activeCell (cellsState (sampleEditor 0)) - 1)
  ∧ (∃ st', exec (activateBelow (cellActions (StemCell "c0") 0))
              (sampleEditor 2) = Some st'
       ∧ activeCell (cellsState st') = 1
       ∧ activeCell (cellsState st')
         ≠ activeCell (cellsState (sampleEditor 2)) + 1).
Proof.
  split; eexists; (split; [reflexivity|]); split; [reflexivity| |reflexivity|];
    discriminate.
Qed.

(** * Further properties of the closures *)

(** ** Appending, adding and creating cells *)

Section AddingCells.
Context {T : Type}.
Implicit Types (st : Editor T) (cell new : Cell T) (l : list (Cell T)).
Implicit Types (i : Z) (fresh : CellId).

Lemma get_insert_middle l (k : nat) cell :
  (k ≤ length l)%nat →
  JsArray.get (take k l ++ cell :: drop k l) (Z.of_nat k) = Some cell.
Proof.
  intros Hk. apply get_Some. rewrite Nat2Z.id. split.
  - rewrite len_app. unfold JsArray.len. cbn [length].
    rewrite length_take, length_drop. lia.
  - by apply (lookup_insert_middle l).
Qed.

Lemma delete_insert_cons l (k : nat) cell :
  (k ≤ length l)%nat → delete k (take k l ++ cell :: drop k l) = l.
Proof. apply (delete_insert_middle l). Qed.

(** X1.  From every state [appendCell cell] ends with [cell] added as the
    last cell, the cells before it as they were, and [activeCell] at the
    index of the new cell; the selection is empty. *)
Theorem appendCell_appends st cell :
  ∃ st', exec (appendCell cell) st = Some st'
    ∧ cells (notebook st') = cells (notebook st) ++ [cell]
    ∧ activeCell (cellsState st') = JsArray.len (cells (notebook st))
    ∧ JsArray.get (cells (notebook st')) (activeCell (cellsState st'))
      = Some cell
    ∧ selectedCells (cellsState st') = ∅.
Proof.
  eexists. split; [eapply exec_run, appendCell_run|]. cbn.
  repeat split. apply get_Some. rewrite len_app.
  pose proof (len_nonneg (cells (notebook st))).
  change (JsArray.len [cell]) with 1. split; [lia|].
  unfold JsArray.len. rewrite Nat2Z.id. by apply list_lookup_middle.
Qed.

(** X2.  For every state whose [activeCell] is -1 or an index of the
    notebook, [addAfterActiveCell cell] puts [cell] into the sequence at
    index [activeCell + 1] and removes or reorders nothing: without the new
    cell the sequence is the old one.  [activeCell] advances by 1, so the new
    cell is the active cell, and the selection is empty. *)
Theorem addAfterActiveCell_inserts st cell :
  let l := cells (notebook st) in
  let a := activeCell (cellsState st) in
  -1 ≤ a < JsArray.len l →
  ∃ st', exec (addAfterActiveCell cell) st = Some st'
    ∧ cells (notebook st')
      = take (Z.to_nat (a + 1)) l ++ cell :: drop (Z.to_nat (a + 1)) l
    ∧ delete (Z.to_nat (a + 1)) (cells (notebook st')) = l
    ∧ activeCell (cellsState st') = a + 1
    ∧ JsArray.get (cells (notebook st')) (activeCell (cellsState st'))
      = Some cell
    ∧ selectedCells (cellsState st') = ∅.
Proof.
  cbn. set (l := cells (notebook st)). set (a := activeCell (cellsState st)).
  intros Ha.
  assert ((Z.to_nat (a + 1) ≤ length l)%nat) as Hk
    by (unfold JsArray.len in Ha; lia).
  eexists. split; [by eapply exec_run, addAfterActiveCell_run|].
  fold l a. rewrite splice_insert by lia.
  cbn [withActive withCells notebook cells cellsState activeCell
       selectedCells snd].
  split; [done|]. split; [by apply (delete_insert_middle l)|].
  split; [done|]. split; [|done].
  rewrite <- (Z2Nat.id (a + 1)) at 3 by lia. by apply get_insert_middle.
Qed.

(** X3.  For every state and every index [i] of the notebook, [createAbove]
    of the cell at [i] puts a new stem cell at index [i], so that the cell
    that was at [i] is at [i + 1] and no cell is lost or reordered, and
    makes the new cell the active cell; the selection is empty. *)
Theorem createAbove_at_index st cell i fresh :
  0 ≤ i < JsArray.len (cells (notebook st)) →
  ∃ st', exec (createAbove (cellActions cell i) fresh) st = Some st'
    ∧ JsArray.get (cells (notebook st')) i = Some (newStemCell fresh)
    ∧ JsArray.get (cells (notebook st')) (i + 1)
      = JsArray.get (cells (notebook st)) i
    ∧ delete (Z.to_nat i) (cells (notebook st')) = cells (notebook st)
    ∧ activeCell (cellsState st') = i
    ∧ selectedCells (cellsState st') = ∅.
Proof.
  intros Hi. set (l := cells (notebook st)) in *.
  assert ((Z.to_nat i ≤ length l)%nat) as Hk
    by (unfold JsArray.len in Hi; lia).
  destruct (get_in_range l i Hi) as (c & Hget & Hc).
  eexists. split; [eapply exec_run, insert_then_activate; fold l; lia|].
  fold l. rewrite splice_insert by lia. cbn.
  split; [rewrite <- (Z2Nat.id i) at 3 by lia; by apply get_insert_middle|].
  split.
  { rewrite Hget. apply get_Some. split.
    - rewrite len_app. unfold JsArray.len in *. cbn [length].
      rewrite length_take, length_drop. lia.
    - rewrite lookup_app_r; rewrite length_take; [|lia].
      replace (Z.to_nat (i + 1) - Z.to_nat i `min` length l)%nat
        with 1%nat by lia.
      change ((newStemCell fresh :: drop (Z.to_nat i) l) !! 1%nat)
        with (drop (Z.to_nat i) l !! 0%nat).
      by rewrite lookup_drop, Nat.add_0_r. }
  split; [by apply (delete_insert_middle l)|done].
Qed.

(** X4.  For every state and every index [i] of the notebook, [createBelow]
    of the cell at [i] puts a new stem cell at index [i + 1], leaves the
    cell at [i] where it was and loses or reorders no cell, and makes the
    new cell the active cell; the selection is empty. *)
Theorem createBelow_at_index st cell i fresh :
  0 ≤ i < JsArray.len (cells (notebook st)) →
  ∃ st', exec (createBelow (cellActions cell i) fresh) st = Some st'
    ∧ JsArray.get (cells (notebook st')) (i + 1) = Some (newStemCell fresh)
    ∧ JsArray.get (cells (notebook st')) i
      = JsArray.get (cells (notebook st)) i
    ∧ delete (Z.to_nat (i + 1)) (cells (notebook st')) = cells (notebook st)
    ∧ activeCell (cellsState st') = i + 1
    ∧ selectedCells (cellsState st') = ∅.
Proof.
  intros Hi. set (l := cells (notebook st)) in *.
  assert ((Z.to_nat (i + 1) ≤ length l)%nat) as Hk
    by (unfold JsArray.len in Hi; lia).
  destruct (get_in_range l i Hi) as (c & Hget & Hc).
  eexists. split; [eapply exec_run, insert_then_activate; fold l; lia|].
  fold l. rewrite splice_insert by lia. cbn.
  split; [rewrite <- (Z2Nat.id (i + 1)) at 3 by lia;
          by apply get_insert_middle|].
  split.
  { rewrite Hget. apply get_Some. split.
    - rewrite len_app. unfold JsArray.len in *. cbn [length].
      rewrite length_take, length_drop. lia.
    - rewrite lookup_app_l; [|rewrite length_take; lia].
      by rewrite lookup_take_lt by lia. }
  split; [by apply (delete_insert_middle l)|done].
Qed.

(** X5.  For every state and every index [i] of the notebook, [createBelow]
    of the cell at [i] followed by [deleteBackward] of the stem cell that
    it created gives back the notebook as it was, with the cell at [i]
    active. *)
Theorem createBelow_then_deleteBackward st cell i fresh :
  0 ≤ i < JsArray.len (cells (notebook st)) →
  ∃ st1 st2,
    exec (createBelow (cellActions cell i) fresh) st = Some st1
    ∧ exec (deleteBackward (cellActions (newStemCell fresh) (i + 1))) st1
      = Some st2
    ∧ notebook st2 = notebook st
    ∧ activeCell (cellsState st2) = i.
Proof.
  intros Hi. set (l := cells (notebook st)) in *.
  assert ((Z.to_nat (i + 1) ≤ length l)%nat) as Hk
    by (unfold JsArray.len in Hi; lia).
  eexists _, _. split; [eapply exec_run, insert_then_activate; fold l; lia|].
  fold l. rewrite splice_insert by lia. cbn [snd].
  split.
  - eapply exec_run, remove_then_activate. cbn.
    rewrite len_app. unfold JsArray.len in *. cbn [length].
    rewrite length_take, length_drop. lia.
  - cbn. rewrite delete_insert_cons by done. split; [|lia].
    unfold l. by destruct (notebook st).
Qed.

(** X6.  For every state and every index [i] of the notebook, [createAbove]
    of the cell at [i] followed by [deleteForward] of the stem cell that it
    created gives back the notebook as it was, with the cell at [i]
    active. *)
Theorem createAbove_then_deleteForward st cell i fresh :
  0 ≤ i < JsArray.len (cells (notebook st)) →
  ∃ st1 st2,
    exec (createAbove (cellActions cell i) fresh) st = Some st1
    ∧ exec (deleteForward (cellActions (newStemCell fresh) i)) st1 = Some st2
    ∧ notebook st2 = notebook st
    ∧ activeCell (cellsState st2) = i.
Proof.
  intros Hi. set (l := cells (notebook st)) in *.
  assert ((Z.to_nat i ≤ length l)%nat) as Hk
    by (unfold JsArray.len in Hi; lia).
  eexists _, _. split; [eapply exec_run, insert_then_activate; fold l; lia|].
  fold l. rewrite splice_insert by lia. cbn [snd].
  split.
  - eapply exec_run, remove_then_activate. cbn.
    rewrite len_app. unfold JsArray.len in *. cbn [length].
    rewrite length_take, length_drop. lia.
  - cbn. rewrite delete_insert_cons by done. split; [|lia].
    unfold l. by destruct (notebook st).
Qed.

(** X7.  For every state and every index [i] of the notebook,
    [replaceCellWith i cell] ends with [cell] at index [i] and every other
    index, the length, the signal ([activeCell], the selection) and the
    text selection as they were. *)
Theorem replaceCellWith_frame st i cell :
  0 ≤ i < JsArray.len (cells (notebook st)) →
  ∃ st', exec (replaceCellWith i cell) st = Some st'
    ∧ JsArray.len (cells (notebook st')) = JsArray.len (cells (notebook st))
    ∧ JsArray.get (cells (notebook st')) i = Some cell
    ∧ (∀ j, j ≠ i →
         JsArray.get (cells (notebook st')) j
         = JsArray.get (cells (notebook st)) j)
    ∧ cellsState st' = cellsState st
    ∧ textSelection st' = textSelection st.
Proof.
  intros Hi. set (l := cells (notebook st)) in *.
  assert (JsArray.len (<[Z.to_nat i:=cell]> l) = JsArray.len l) as Hlen.
  { unfold JsArray.len. by rewrite length_insert. }
  eexists. split; [by eapply exec_run, replaceCellWith_in_range|].
  fold l. cbn. split; [done|]. split.
  { apply get_Some. rewrite Hlen. split; [done|].
    apply list_lookup_insert_eq. unfold JsArray.len in Hi. lia. }
  split; [|done]. intros j Hj. unfold JsArray.get.
  destruct (decide (0 ≤ j)); [|done].
  apply list_lookup_insert_ne. lia.
Qed.

(** X8.  For every state whose [activeCell] is -1 or an index of the
    notebook, Shift-Enter (a stem cell is added after the active cell)
    followed by an insert command (its cell is added, or fills in an active
    stem cell) ends in the very state in which adding the cell of the
    command after the active cell ends: the stem cell is filled in and none
    is left behind. *)
Theorem shiftEnter_then_insert st fresh new :
  -1 ≤ activeCell (cellsState st) < JsArray.len (cells (notebook st)) →
  ∃ st1 st2,
    exec (addAfterActiveCell (newStemCell fresh)) st = Some st1
    ∧ exec (addOrReplaceActiveCell new) st1 = Some st2
    ∧ exec (addAfterActiveCell new) st = Some st2.
Proof.
  intros Ha. set (l := cells (notebook st)) in *.
  set (a := activeCell (cellsState st)) in *.
  assert ((Z.to_nat (a + 1) ≤ length l)%nat) as Hk
    by (unfold JsArray.len in Ha; lia).
  pose proof (get_insert_middle l _ (newStemCell fresh) Hk) as Hstem.
  rewrite Z2Nat.id in Hstem by lia.
  pose proof Hstem as Hin. apply get_Some in Hin as [Hin _].
  eexists _, _.
  split; [eapply exec_run, addAfterActiveCell_run; fold l a; lia|].
  fold l a. rewrite splice_insert by lia. cbn [snd].
  split.
  - eapply exec_run. rewrite addOrReplaceActiveCell_run. cbn.
    rewrite Hstem. cbn. by apply replaceCellWith_in_range.
  - eapply exec_run. rewrite addAfterActiveCell_run by (fold l a; lia).
    fold l a.
    rewrite splice_insert by lia. cbn.
    rewrite insert_app_r_alt by (rewrite length_take; lia).
    rewrite length_take.
    replace (Z.to_nat (a + 1) - Z.to_nat (a + 1) `min` length l)%nat
      with 0%nat by lia.
    done.
Qed.

(** X9.  For every state and every index [i] of the notebook,
    [deleteBackward] of the cell at [i] followed by [addAfterActiveCell new]
    ends with [new] in the place of the deleted cell, every other cell
    where it was, and [new] active. *)
Theorem deleteBackward_then_add st cell i new :
  0 ≤ i < JsArray.len (cells (notebook st)) →
  ∃ st1 st2,
    exec (deleteBackward (cellActions cell i)) st = Some st1
    ∧ exec (addAfterActiveCell new) st1 = Some st2
    ∧ cells (notebook st2) = <[Z.to_nat i := new]> (cells (notebook st))
    ∧ activeCell (cellsState st2) = i
    ∧ JsArray.get (cells (notebook st2)) (activeCell (cellsState st2))
      = Some new.
Proof.
  intros Hi. set (l := cells (notebook st)) in *.
  assert ((Z.to_nat i < length l)%nat) as Hk
    by (unfold JsArray.len in Hi; lia).
  assert (JsArray.len (delete (Z.to_nat i) l) = JsArray.len l - 1) as Hlen.
  { unfold JsArray.len. rewrite length_delete; [lia|].
    by apply lookup_lt_is_Some_2. }
  assert (take (Z.to_nat i) (delete (Z.to_nat i) l)
          ++ [new] ++ drop (Z.to_nat i) (delete (Z.to_nat i) l)
          = <[Z.to_nat i := new]> l) as Hcells.
  { rewrite delete_take_drop, insert_take_drop by done.
    rewrite take_app_length' by (rewrite length_take; lia).
    by rewrite drop_app_length' by (rewrite length_take; lia). }
  eexists _, _. split; [by eapply exec_run, remove_then_activate|].
  fold l. split.
  { eapply exec_run, addAfterActiveCell_run.
    cbn [withActive withCells notebook cells cellsState activeCell].
    rewrite Hlen. lia. }
  cbn [withActive withCells notebook cells cellsState activeCell].
  replace (i - 1 + 1) with i by lia.
  rewrite splice_insert by lia. cbn [snd]. rewrite Hcells.
  split; [done|]. split; [done|].
  apply get_Some. split.
  - unfold JsArray.len. rewrite length_insert. unfold JsArray.len in Hi. lia.
  - by apply list_lookup_insert_eq.
Qed.

End AddingCells.

(** ** The selection of cells and the text selection *)

Section SelectionFacts.
Context {T : Type}.
Implicit Types (st : Editor T) (cell c : Cell T) (i : Z) (cellId : CellId).

(** X10.  From every state [setSelectedCells] ends with the selection it is
    given (or computes from the former one) and does not touch the
    notebook or [activeCell]; when the new selection is not empty, every
    range of the text selection of the page is removed, and when it is
    empty the text selection is left as it was. *)
Theorem setSelectedCells_excludes_text st update :
  let s := match update with
           | inl s => s
           | inr f => f (selectedCells (cellsState st))
           end in
  ∃ st', exec (setSelectedCells update) st = Some st'
    ∧ selectedCells (cellsState st') = s
    ∧ activeCell (cellsState st') = activeCell (cellsState st)
    ∧ notebook st' = notebook st
    ∧ (s ≠ ∅ → textSelection st' = (λ _, 0%nat) <$> textSelection st)
    ∧ (s = ∅ → textSelection st' = textSelection st).
Proof.
  cbn. eexists. split; [eapply exec_run, setSelectedCells_run|]. cbn.
  repeat split.
  - intros Hne. destruct (decide (size _ ≠ 0%nat)) as [|Hz]; [done|].
    destruct Hne. apply dec_stable in Hz. by apply leibniz_equiv, size_empty_iff.
  - intros He. destruct (decide (size _ ≠ 0%nat)) as [Hnz|]; [|done].
    destruct Hnz. rewrite He. apply size_empty.
Qed.

(** X11.  From every state the action [select] of a cell ends with exactly
    that cell's id selected: a cell is shown as selected afterwards exactly
    when it has that id.  [activeCell] and the notebook are as before, and
    no range of text stays selected. *)
Theorem select_selects_only st cell i :
  ∃ st', exec (select (cellActions cell i)) st = Some st'
    ∧ selectedCells (cellsState st') = {[ cell_id cell ]}
    ∧ (∀ c, isSelected c st'
            = Some (bool_decide (cell_id c = cell_id cell), st'))
    ∧ activeCell (cellsState st') = activeCell (cellsState st)
    ∧ notebook st' = notebook st
    ∧ textSelection st' = (λ _, 0%nat) <$> textSelection st.
Proof.
  eexists. split; [eapply exec_run, setSelectedCells_run|]. cbn.
  split; [done|]. split.
  - intros c. unfold isSelected, readSelectedCells, readCellsState, mbind,
      M_bind, mret, M_ret. cbn. do 2 f_equal.
    apply bool_decide_ext. apply elem_of_singleton.
  - repeat split. rewrite size_singleton.
    destruct (decide (1 ≠ 0)%nat) as [|Hn]; [done|by destruct Hn].
Qed.

(** X12.  From every state [toggleCellSelection cellId] ends with the
    membership of [cellId] in the selection reversed and the membership of
    every other id as it was; [activeCell] and the notebook are as
    before. *)
Theorem toggleCellSelection_flips st cellId :
  ∃ st', exec (toggleCellSelection cellId) st = Some st'
    ∧ (cellId ∈ selectedCells (cellsState st')
       ↔ cellId ∉ selectedCells (cellsState st))
    ∧ (∀ x, x ≠ cellId →
         x ∈ selectedCells (cellsState st')
         ↔ x ∈ selectedCells (cellsState st))
    ∧ activeCell (cellsState st') = activeCell (cellsState st)
    ∧ notebook st' = notebook st.
Proof.
  eexists. split; [eapply exec_run, setSelectedCells_run|]. cbn.
  split; [|split; [|done]].
  - destruct (decide (cellId ∈ selectedCells (cellsState st))).
    + rewrite elem_of_difference, elem_of_singleton. intuition.
    + rewrite elem_of_union, elem_of_singleton. intuition.
  - intros x Hx. destruct (decide (cellId ∈ selectedCells (cellsState st))).
    + rewrite elem_of_difference, elem_of_singleton. intuition.
    + rewrite elem_of_union, elem_of_singleton. intuition.
Qed.

Lemma handleSelectionChange_outcome st type :
  ∃ st', exec (handleSelectionChange type) st = Some st'
    ∧ notebook st' = notebook st
    ∧ activeCell (cellsState st') = activeCell (cellsState st)
    ∧ textSelection st' = textSelection st
    ∧ (type = SelectionRange → is_Some (textSelection st) →
       selectedCells (cellsState st') = ∅)
    ∧ (type ≠ SelectionRange ∨ textSelection st = None → st' = st).
Proof.
  unfold handleSelectionChange, readTextSelection, readSelectedCells,
    readCellsState, exec, mbind, M_bind, mret, M_ret. cbn.
  destruct (textSelection st) as [n|] eqn:Hsel.
  - destruct (bool_decide (type = SelectionRange)) eqn:Htype.
    + apply bool_decide_eq_true in Htype.
      destruct (bool_decide (0 < size (selectedCells (cellsState st)))%nat)
        eqn:Hsize; cbn.
      * rewrite setSelectedCells_run. cbn. rewrite size_empty.
        destruct (decide (0 ≠ 0)%nat); [done|]. eexists. split; [done|]. cbn.
        repeat split; try done. by intros [Hne|[=]].
      * exists st. split; [done|]. apply bool_decide_eq_false in Hsize.
        repeat split; try done.
        intros _ _. apply leibniz_equiv, size_empty_iff. lia.
    + apply bool_decide_eq_false in Htype. cbn. exists st.
      repeat split; done.
  - exists st. repeat split; done.
Qed.

(** X13.  From every state [handleSelectionChange] never changes the
    notebook, [activeCell] or the text selection.  When the page has a
    selection and its type is a range, the selection of cells is empty
    afterwards; otherwise the state is as it was. *)
Theorem handleSelectionChange_excludes_cells st type :
  ∃ st', exec (handleSelectionChange type) st = Some st'
    ∧ notebook st' = notebook st
    ∧ activeCell (cellsState st') = activeCell (cellsState st)
    ∧ textSelection st' = textSelection st
    ∧ (type = SelectionRange → is_Some (textSelection st) →
       selectedCells (cellsState st') = ∅)
    ∧ (type ≠ SelectionRange ∨ textSelection st = None → st' = st).
Proof. apply handleSelectionChange_outcome. Qed.

End SelectionFacts.

(** ** Drops in general *)

Section DropFacts.
Context {T : Type}.
Implicit Types (st : Editor T) (cell c : Cell T) (l : list (Cell T)).
Implicit Types (cellId : CellId) (source : DragData).

Lemma some_hasId_resolved cellId l :
  cellId ∈ ids l → JsArray.some (hasId cellId) l = true.
Proof.
  intros Hin. apply list_elem_of_fmap in Hin as (c & -> & Hc).
  unfold JsArray.some. apply existsb_exists. exists c.
  split; [by apply list_elem_of_In|]. by apply hasId_true.
Qed.

(** X14.  From every state [canMonitor] leaves the state as it is and
    accepts a drag source exactly when its payload is that of a notebook
    cell whose id is the id of a cell of the notebook. *)
Theorem canMonitor_accepts_resolving st source :
  ∃ b, canMonitor source st = Some (b, st)
    ∧ (b = true ↔ resolves source (cells (notebook st))).
Proof.
  unfold canMonitor. erewrite bind_run; [|apply readCells_run].
  eexists. split; [reflexivity|].
  destruct source as [sourceId e|]; cbn; [|done].
  destruct (decide (sourceId ∈ ids (cells (notebook st)))) as [Hin|Hout].
  - by rewrite some_hasId_resolved.
  - by rewrite some_hasId_unresolved.
Qed.

Lemma onDrop_outcome st dropTargets source :
  ∃ st', exec (onDrop dropTargets source) st = Some st'
    ∧ cells (notebook st') ≡ₚ cells (notebook st)
    ∧ cellsState st' = cellsState st
    ∧ textSelection st' = textSelection st.
Proof.
  set (l := cells (notebook st)).
  assert (∃ st', exec (mret tt : M T unit) st = Some st'
            ∧ cells (notebook st') ≡ₚ l
            ∧ cellsState st' = cellsState st
            ∧ textSelection st' = textSelection st) as Hnoop
    by (by exists st).
  destruct dropTargets as [|[targetId edge|] rest]; [done| |done].
  destruct source as [sourceId e0|]; [|done].
  destruct (decide (JsArray.findIndex (hasId sourceId) l < 0
                    ∨ JsArray.findIndex (hasId targetId) l < 0))
    as [Hun|Hres].
  - unfold onDrop. cbn [head]. unfold exec.
    erewrite bind_run; [|apply readCells_run]. fold l.
    destruct (decide _); [|done]. by exists st.
  - assert (0 ≤ JsArray.findIndex (hasId sourceId) l) as Ha by lia.
    assert (0 ≤ JsArray.findIndex (hasId targetId) l) as Hb by lia.
    destruct (findIndex_resolved sourceId l Ha) as (Ha' & moved & Hmoved & _).
    eexists. split.
    { eapply exec_run. by apply (onDrop_resolved_run _ _ _ _ _ _ moved). }
    fold l. rewrite splice_insert_at_start. cbn.
    split; [|done].
    rewrite <- Permutation_middle, take_drop.
    symmetry. by apply delete_Permutation.
Qed.

(** X15.  From every state and for every drop whatsoever (any payloads, any
    or no drop target, any or no edge) [onDrop] ends, and the cells
    afterwards are the cells before in some order: no cell is lost,
    duplicated or altered.  The signal ([activeCell], the selection) and
    the text selection are as before. *)
Theorem onDrop_permutes st dropTargets source :
  ∃ st', exec (onDrop dropTargets source) st = Some st'
    ∧ cells (notebook st') ≡ₚ cells (notebook st)
    ∧ cellsState st' = cellsState st
    ∧ textSelection st' = textSelection st.
Proof. apply onDrop_outcome. Qed.

End DropFacts.

(** ** What is rendered *)

Section RenderingFacts.
Context {T : Type}.
Implicit Types (nb : Notebook T) (st : Editor T) (cell c : Cell T) (i : Z).

(** X16.  The placeholder of the empty notebook and the button below the
    cells are never shown together, and neither is shown exactly when the
    notebook is not empty and all its cells are stem cells: such a notebook
    offers no button to append a cell. *)
Theorem placeholders_exclusive nb :
  (emptyPlaceholderShown nb = true → appendButtonShown nb = false)
  ∧ (emptyPlaceholderShown nb = false ∧ appendButtonShown nb = false
     ↔ cells nb ≠ [] ∧ Forall (λ c, cell_tag c = TagStem) (cells nb)).
Proof.
  unfold emptyPlaceholderShown, appendButtonShown, JsArray.some, JsArray.len.
  destruct nb as [l]. cbn. split.
  - rewrite bool_decide_eq_true. intros Hl. by destruct l.
  - rewrite bool_decide_eq_false. split.
    + intros [Hl Hex]. split; [by destruct l|].
      apply Forall_forall. intros c Hc.
      destruct (decide (cell_tag c = TagStem)) as [|Hne]; [done|].
      assert (existsb (λ cell, bool_decide (cell_tag cell ≠ TagStem)) l = true)
        as Htrue; [|congruence].
      apply existsb_exists. exists c. split; [by apply list_elem_of_In|].
      by apply bool_decide_eq_true.
    + intros [Hl Hall]. split; [destruct l; [done|cbn; lia]|].
      apply not_true_is_false. intros Hex.
      apply existsb_exists in Hex as (c & Hc & Hne).
      apply bool_decide_eq_true in Hne. destruct Hne.
      rewrite Forall_forall in Hall. by apply Hall, list_elem_of_In.
Qed.

(** X17.  For every state whose cell at index [i] is a formal cell,
    [changeContent i f] ends with that cell's content changed by [f] and
    its id kept; every other cell, the ids of the notebook in their order,
    the signal and the text selection are as before. *)
Theorem changeContent_frame st i f id content :
  JsArray.get (cells (notebook st)) i = Some (FormalCell id content) →
  ∃ st', exec (changeContent i f) st = Some st'
    ∧ JsArray.get (cells (notebook st')) i = Some (FormalCell id (f content))
    ∧ (∀ j, j ≠ i →
         JsArray.get (cells (notebook st')) j
         = JsArray.get (cells (notebook st)) j)
    ∧ ids (cells (notebook st')) = ids (cells (notebook st))
    ∧ cellsState st' = cellsState st
    ∧ textSelection st' = textSelection st.
Proof.
  intros Hget. set (l := cells (notebook st)) in *.
  pose proof Hget as Hi. apply get_Some in Hi as [Hi Hc].
  eexists. split.
  { eapply exec_run. unfold changeContent, changeNotebook.
    erewrite bind_run; [|apply readCells_run]. fold l. rewrite Hget.
    reflexivity. }
  cbn. split.
  { apply get_Some. split.
    - unfold JsArray.len. by rewrite length_insert.
    - apply list_lookup_insert_eq. unfold JsArray.len in Hi. lia. }
  split.
  { intros j Hj. unfold JsArray.get. destruct (decide (0 ≤ j)); [|done].
    apply list_lookup_insert_ne. lia. }
  split; [|done]. unfold ids. rewrite list_fmap_insert. cbn.
  apply list_insert_id. by rewrite list_lookup_fmap, Hc.
Qed.

End RenderingFacts.

(** ** Shortcuts *)

Section ShortcutFacts.
Context {T : Type}.
Implicit Types (userAgent : string) (L : list (CellConstructor T)).

Lemma command_keys (cs : list (CellConstructor T)) :
  fst <$> omap (λ command : Completion T,
                  keys ← completionShortcut command;
                  Some (keys, default (λ _, mret tt) (onComplete command)))
            ((λ cc, {| completionName := name cc;
                       completionDescription := description cc;
                       completionShortcut := shortcut cc;
                       onComplete := Some (λ fresh,
                         addOrReplaceActiveCell (construct cc fresh)) |})
             <$> cs)
  = omap shortcut cs.
Proof.
  induction cs as [|cc cs IH]; [done|].
  cbn. destruct (shortcut cc) as [keys|]; cbn; by rewrite <- IH.
Qed.

(** X18.  Under [noShortcuts] the component binds no shortcut.  Otherwise
    the keys it binds are, in order: the modifier key of the platform
    (Control or Alt) with T for the built-in text cell, the shortcut of
    each constructor of the caller that has one (a constructor without a
    shortcut is skipped), and Shift-Enter last. *)
Theorem shortcuts_keys noShortcuts userAgent L :
  fst <$> shortcuts noShortcuts userAgent L
  = (if noShortcuts then []
     else ([cellShortcutModifier userAgent; "T"] :: omap shortcut L)
          ++ [["Shift"; "Enter"]])
  ∧ (cellShortcutModifier userAgent = "Control"
     ∨ cellShortcutModifier userAgent = "Alt").
Proof.
  split.
  - unfold shortcuts. destruct noShortcuts; [done|].
    rewrite fmap_app. unfold insertCommands. rewrite command_keys. done.
  - unfold cellShortcutModifier. destruct (includes _ _); auto.
Qed.

End ShortcutFacts.

(** ** An invariant of the editor *)

Section Invariant.
Context {T : Type}.
Implicit Types (st : Editor T) (cell c : Cell T) (l : list (Cell T)).
Implicit Types (i : Z) (ev : Event T).

Lemma forCellAt_run i (k : Cell T → M T unit) st :
  forCellAt i k st
  = match JsArray.get (cells (notebook st)) i with
    | Some cell => k cell st
    | None => Some (tt, st)
    end.
Proof.
  unfold forCellAt. erewrite bind_run; [|apply readCells_run].
  by destruct (JsArray.get _ _).
Qed.

Lemma exec_bind_run {A B} (m : M T A) (f : A → M T B) st x st' :
  m st = Some (x, st') → exec (m ≫= f) st = exec (f x) st'.
Proof. intros Hrun. unfold exec. by erewrite bind_run. Qed.

Lemma exec_forCellAt i (k : Cell T → M T unit) st :
  exec (forCellAt i k) st
  = match JsArray.get (cells (notebook st)) i with
    | Some cell => exec (k cell) st
    | None => Some st
    end.
Proof.
  unfold exec at 1. rewrite forCellAt_run. by destruct (JsArray.get _ _).
Qed.

Lemma exec_addOrReplaceActiveCell cell st :
  exec (addOrReplaceActiveCell cell) st
  = match JsArray.get (cells (notebook st)) (activeCell (cellsState st)) with
    | Some c =>
        match cell_tag c with
        | TagStem => exec (replaceCellWith (activeCell (cellsState st)) cell) st
        | _ => exec (addAfterActiveCell cell) st
        end
    | None => exec (addAfterActiveCell cell) st
    end.
Proof.
  unfold exec at 1. rewrite addOrReplaceActiveCell_run.
  destruct (JsArray.get _ _) as [c|]; [|done]. by destruct (cell_tag c).
Qed.

Lemma splice_insert_len l start cell :
  JsArray.len (JsArray.splice l start 0 [cell]).2 = JsArray.len l + 1.
Proof.
  rewrite splice_insert_at_start. cbn [snd].
  generalize (Z.to_nat (JsArray.spliceStart l start)) as k. intros k.
  assert (JsArray.len (take k l) + JsArray.len (drop k l) = JsArray.len l)
    as Hsplit by (by rewrite <- len_app, take_drop).
  rewrite !len_app. change (JsArray.len [cell]) with 1. lia.
Qed.

(** The two outcomes of the closure of an event: it completes, with one
    change of the cells and the active index kept within the bounds; or it
    raises, which it does only from an [activeCell] that is neither -1 nor
    an index of the notebook. *)
Lemma outcome_intro ev (m : M T unit) st st' :
  m st = Some (tt, st') →
  oneCellChange ev (cells (notebook st)) (cells (notebook st')) →
  (activeCellInBounds st → activeCellInBounds st') →
  (∃ st'', exec m st = Some st''
      ∧ oneCellChange ev (cells (notebook st)) (cells (notebook st''))
      ∧ (activeCellInBounds st → activeCellInBounds st''))
  ∨ (exec m st = None
     ∧ ¬ (-1 ≤ activeCell (cellsState st) < JsArray.len (cells (notebook st)))).
Proof.
  intros Hrun Hch Hin. left. exists st'. split; [by eapply exec_run|done].
Qed.

Lemma addAfterActiveCell_outcome ev cell st :
  brings ev = Some (cell_id cell) →
  (∃ st', exec (addAfterActiveCell cell) st = Some st'
      ∧ oneCellChange ev (cells (notebook st)) (cells (notebook st'))
      ∧ (activeCellInBounds st → activeCellInBounds st'))
  ∨ (exec (addAfterActiveCell cell) st = None
     ∧ ¬ (-1 ≤ activeCell (cellsState st) < JsArray.len (cells (notebook st)))).
Proof.
  intros Hev.
  destruct (decide (-1 ≤ activeCell (cellsState st)
                    < JsArray.len (cells (notebook st)))) as [Ha|Ha].
  - eapply outcome_intro; [by apply addAfterActiveCell_run| |].
    + cbn [withActive withCells notebook cells].
      rewrite splice_insert_at_start. right. left. by eexists _, _.
    + intros _. unfold activeCellInBounds.
      cbn [withActive withCells notebook cells cellsState activeCell].
      rewrite splice_insert_len. lia.
  - right. split; [|done]. unfold exec.
    rewrite addAfterActiveCell_raises; [done|lia].
Qed.

Lemma handle_outcome ev st :
  (∃ st', exec (handle ev) st = Some st'
      ∧ oneCellChange ev (cells (notebook st)) (cells (notebook st'))
      ∧ (activeCellInBounds st → activeCellInBounds st'))
  ∨ (exec (handle ev) st = None
     ∧ ¬ (-1 ≤ activeCell (cellsState st) < JsArray.len (cells (notebook st)))).
Proof.
  set (l := cells (notebook st)).
  assert ((∃ st', Some st = Some st'
              ∧ oneCellChange ev l (cells (notebook st'))
              ∧ (activeCellInBounds st → activeCellInBounds st'))
          ∨ ((Some st : option (Editor T)) = None
             ∧ ¬ (-1 ≤ activeCell (cellsState st) < JsArray.len l)))
    as Hstay.
  { left. exists st. split; [done|]. split; [by left|done]. }
  destruct ev as [i|i|i|i fresh|i fresh|i|i|i|i ctrlKey|i f|i new|new|fresh
                  |fresh|dropTargets source|type]; cbn [handle].
  1-11: rewrite exec_forCellAt; fold l;
    destruct (JsArray.get l i) as [cell|] eqn:Hget;
    [|exact Hstay];
    apply get_Some in Hget as [Hi Hcell].
  - eapply outcome_intro; [reflexivity|by left|].
    intros _. unfold activeCellInBounds. cbn. fold l. lia.
  - cbn. destruct (decide (i > 0)); [|exact Hstay].
    eapply outcome_intro; [reflexivity|by left|].
    intros _. unfold activeCellInBounds. cbn. fold l. lia.
  - cbn [activateBelow cellActions].
    erewrite exec_bind_run; [|apply readCells_run]. fold l.
    destruct (decide (i < JsArray.len l - 1)); [|exact Hstay].
    eapply outcome_intro; [reflexivity|by left|].
    intros _. unfold activeCellInBounds. cbn. fold l. lia.
  - eapply outcome_intro; [apply insert_then_activate; fold l; lia| |].
    + cbn [withActive withCells notebook cells]. fold l.
      rewrite splice_insert_at_start. right. left.
      eexists _, _. split; [|reflexivity]. reflexivity.
    + intros _. unfold activeCellInBounds.
      cbn [withActive withCells notebook cells cellsState activeCell].
      rewrite splice_insert_len. fold l. lia.
  - eapply outcome_intro; [apply insert_then_activate; fold l; lia| |].
    + cbn [withActive withCells notebook cells]. fold l.
      rewrite splice_insert_at_start. right. left.
      eexists _, _. split; [|reflexivity]. reflexivity.
    + intros _. unfold activeCellInBounds.
      cbn [withActive withCells notebook cells cellsState activeCell].
      rewrite splice_insert_len. fold l. lia.
  - eapply outcome_intro; [by apply remove_then_activate| |].
    + right. right. left. by eexists.
    + intros _. unfold activeCellInBounds.
      cbn [withActive withCells notebook cells cellsState activeCell].
      fold l. rewrite len_delete by done. lia.
  - eapply outcome_intro; [by apply remove_then_activate| |].
    + right. right. left. by eexists.
    + intros _. unfold activeCellInBounds.
      cbn [withActive withCells notebook cells cellsState activeCell].
      fold l. rewrite len_delete by done. lia.
  - eapply outcome_intro; [apply setSelectedCells_run|by left|done].
  - destruct ctrlKey; [|exact Hstay].
    eapply outcome_intro; [apply setSelectedCells_run|by left|done].
  - destruct cell as [id content|id content|id]; cbn;
      try exact Hstay.
    eapply outcome_intro.
    { unfold changeContent, changeNotebook.
      erewrite bind_run; [|apply readCells_run]. fold l.
      assert (JsArray.get l i = Some (FormalCell id content)) as ->
        by (by apply get_Some).
      reflexivity. }
    + left. cbn. fold l. unfold ids. rewrite list_fmap_insert. cbn.
      rewrite list_insert_id; [done|]. by rewrite list_lookup_fmap, Hcell.
    + unfold activeCellInBounds, JsArray.len.
      cbn [withActive withCells notebook cells cellsState activeCell].
      by rewrite length_insert.
  - destruct cell as [id content|id content|id]; cbn;
      try exact Hstay.
    eapply outcome_intro; [by apply replaceCellWith_in_range| |].
    + right. right. right. exists (Z.to_nat i), new.
      split; [fold l; unfold JsArray.len in Hi; lia|done].
    + unfold activeCellInBounds, JsArray.len.
      cbn [withActive withCells notebook cells cellsState activeCell].
      by rewrite length_insert.
  - rewrite exec_addOrReplaceActiveCell. fold l.
    destruct (JsArray.get l (activeCell (cellsState st))) as [c|] eqn:Hget.
    + apply get_Some in Hget as [Ha _].
      destruct (cell_tag c); try by apply addAfterActiveCell_outcome.
      eapply outcome_intro; [by apply replaceCellWith_in_range| |].
      * right. right. right.
        exists (Z.to_nat (activeCell (cellsState st))), new.
        split; [fold l; unfold JsArray.len in Ha; lia|done].
      * unfold activeCellInBounds, JsArray.len.
        cbn [withActive withCells notebook cells cellsState activeCell].
        by rewrite length_insert.
    + by apply addAfterActiveCell_outcome.
  - by apply addAfterActiveCell_outcome.
  - erewrite exec_bind_run; [|apply readCells_run].
    destruct (_ || _); [|exact Hstay].
    eapply outcome_intro; [apply appendCell_run| |].
    + right. left. exists (length l), (newStemCell fresh).
      split; [done|]. cbn. fold l. by rewrite firstn_all, drop_all.
    + intros _. unfold activeCellInBounds.
      cbn [withActive withCells notebook cells cellsState activeCell].
      rewrite len_app. change (JsArray.len [newStemCell fresh]) with 1.
      pose proof (len_nonneg (cells (notebook st))). lia.
  - destruct (onDrop_outcome st dropTargets source)
      as (st' & Hexec & Hperm & Hsig & _).
    left. exists st'. split; [done|]. split.
    + left. unfold ids. by rewrite Hperm.
    + unfold activeCellInBounds, JsArray.len. by rewrite Hsig, Hperm.
  - destruct (handleSelectionChange_outcome st type)
      as (st' & Hexec & Hnb & Hactive & _).
    left. exists st'. split; [done|]. split.
    + left. by rewrite Hnb.
    + unfold activeCellInBounds. by rewrite Hnb, Hactive.
Qed.

Lemma handle_completes ev st :
  -1 ≤ activeCell (cellsState st) < JsArray.len (cells (notebook st)) →
  completes (handle ev) st.
Proof.
  intros Ha. destruct (handle_outcome ev st) as [(st' & Hexec & _)|[_ Hout]].
  - by exists st'.
  - by destruct Hout.
Qed.

Lemma handleAll_keeps_bounds (evs : list (Event T)) st st' :
  activeCellInBounds st → exec (handleAll evs) st = Some st' →
  activeCellInBounds st'.
Proof.
  revert st. induction evs as [|ev evs IH]; intros st Hin Hexec.
  - injection Hexec as <-. done.
  - cbn [handleAll] in Hexec.
    destruct (handle_outcome ev st) as [(st1 & Hexec1 & _ & Hin1)|[Hraise _]].
    + apply (IH st1); [by apply Hin1|].
      unfold exec in *. destruct (handle ev st) as [[[] st1']|] eqn:Hrun;
        [|done].
      injection Hexec1 as ->. by erewrite bind_run in Hexec.
    + unfold exec in *. destruct (handle ev st) as [[[] st1']|] eqn:Hrun;
        [done|].
      by rewrite bind_raises in Hexec.
Qed.

(** X19.  From the initial state of the editor on any notebook, whenever
    a sequence of events completes, [activeCell] is -1, an index of the
    notebook, or its length in the state it ends in: the active index never
    runs further than one past the last cell.  In such a state every event
    completes unless [activeCell] is the length. *)
Theorem activeCell_stays_in_bounds (nb : Notebook T) sel (evs : list (Event T))
  st :
  exec (handleAll evs) (initEditor nb sel) = Some st →
  activeCellInBounds st
  ∧ (activeCell (cellsState st) < JsArray.len (cells (notebook st)) →
     ∀ ev, completes (handle ev) st).
Proof.
  intros Hexec.
  assert (activeCellInBounds (initEditor nb sel)) as Hinit.
  { unfold activeCellInBounds, initEditor, initCellsState. cbn.
    pose proof (len_nonneg (cells nb)).
    destruct (decide (JsArray.len (cells nb) > 0)); lia. }
  pose proof (handleAll_keeps_bounds evs _ _ Hinit Hexec) as Hin.
  split; [done|]. intros Ha ev. apply handle_completes.
  unfold activeCellInBounds in Hin. lia.
Qed.

End Invariant.

(** ** Further runs on the sample notebook *)

Lemma addAfterActiveCell_inserts_witness :
  -1 ≤ activeCell (cellsState (sampleEditor 0))
     < JsArray.len (cells (notebook (sampleEditor 0)))
  ∧ ∃ st', exec (addAfterActiveCell (FormalCell "new" "mor")) (sampleEditor 0)
           = Some st'
      ∧ activeCell (cellsState st') = 1
      ∧ JsArray.get (cells (notebook st')) (activeCell (cellsState st'))
        = Some (FormalCell "new" "mor")
      ∧ delete 1%nat (cells (notebook st')) = sampleCells.
Proof.
  assert (-1 ≤ activeCell (cellsState (sampleEditor 0))
             < JsArray.len (cells (notebook (sampleEditor 0)))) as Ha
    by len_lia.
  split; [exact Ha|].
  destruct (addAfterActiveCell_inserts (sampleEditor 0)
              (FormalCell "new" "mor") Ha)
    as (st' & Hexec & _ & Hrest & Hactive & Hnew & _).
  exists st'. split; [exact Hexec|]. split; [exact Hactive|].
  split; [exact Hnew|exact Hrest].
Defined.

Lemma createAbove_at_index_witness :
  0 ≤ 1 < JsArray.len (cells (notebook (sampleEditor 1)))
  ∧ ∃ st', exec (createAbove (cellActions (RichTextCell "c1" "text") 1) "s")
             (sampleEditor 1) = Some st'
      ∧ JsArray.get (cells (notebook st')) 1 = Some (StemCell "s")
      ∧ JsArray.get (cells (notebook st')) 2
        = Some (RichTextCell "c1" "text")
      ∧ activeCell (cellsState st') = 1.
Proof.
  assert (0 ≤ 1 < JsArray.len (cells (notebook (sampleEditor 1)))) as Hi
    by len_lia.
  split; [exact Hi|].
  destruct (createAbove_at_index (sampleEditor 1) (RichTextCell "c1" "text")
              1 "s" Hi) as (st' & Hexec & Hnew & Hold & _ & Hactive & _).
  exists st'. split; [exact Hexec|]. split; [exact Hnew|].
  split; [exact Hold|exact Hactive].
Defined.

Lemma createBelow_at_index_witness :
  0 ≤ 1 < JsArray.len (cells (notebook (sampleEditor 1)))
  ∧ ∃ st', exec (createBelow (cellActions (RichTextCell "c1" "text") 1) "s")
             (sampleEditor 1) = Some st'
      ∧ JsArray.get (cells (notebook st')) 2 = Some (StemCell "s")
      ∧ JsArray.get (cells (notebook st')) 1
        = Some (RichTextCell "c1" "text")
      ∧ activeCell (cellsState st') = 2.
Proof.
  assert (0 ≤ 1 < JsArray.len (cells (notebook (sampleEditor 1)))) as Hi
    by len_lia.
  split; [exact Hi|].
  destruct (createBelow_at_index (sampleEditor 1) (RichTextCell "c1" "text")
              1 "s" Hi) as (st' & Hexec & Hnew & Hold & _ & Hactive & _).
  exists st'. split; [exact Hexec|]. split; [exact Hnew|].
  split; [exact Hold|exact Hactive].
Defined.

Lemma createBelow_then_deleteBackward_witness :
  0 ≤ 1 < JsArray.len (cells (notebook (sampleEditor 1)))
  ∧ ∃ st1 st2,
      exec (createBelow (cellActions (RichTextCell "c1" "text") 1) "s")
        (sampleEditor 1) = Some st1
      ∧ exec (deleteBackward (cellActions (StemCell "s") 2)) st1 = Some st2
      ∧ cells (notebook st2) = sampleCells
      ∧ activeCell (cellsState st2) = 1.
Proof.
  assert (0 ≤ 1 < JsArray.len (cells (notebook (sampleEditor 1)))) as Hi
    by len_lia.
  split; [exact Hi|].
  destruct (createBelow_then_deleteBackward (sampleEditor 1)
              (RichTextCell "c1" "text") 1 "s" Hi)
    as (st1 & st2 & Hexec1 & Hexec2 & Hnb & Hactive).
  exists st1, st2. split; [exact Hexec1|]. split; [exact Hexec2|].
  split; [exact (f_equal cells Hnb)|exact Hactive].
Defined.

Lemma createAbove_then_deleteForward_witness :
  0 ≤ 1 < JsArray.len (cells (notebook (sampleEditor 1)))
  ∧ ∃ st1 st2,
      exec (createAbove (cellActions (RichTextCell "c1" "text") 1) "s")
        (sampleEditor 1) = Some st1
      ∧ exec (deleteForward (cellActions (StemCell "s") 1)) st1 = Some st2
      ∧ cells (notebook st2) = sampleCells
      ∧ activeCell (cellsState st2) = 1.
Proof.
  assert (0 ≤ 1 < JsArray.len (cells (notebook (sampleEditor 1)))) as Hi
    by len_lia.
  split; [exact Hi|].
  destruct (createAbove_then_deleteForward (sampleEditor 1)
              (RichTextCell "c1" "text") 1 "s" Hi)
    as (st1 & st2 & Hexec1 & Hexec2 & Hnb & Hactive).
  exists st1, st2. split; [exact Hexec1|]. split; [exact Hexec2|].
  split; [exact (f_equal cells Hnb)|exact Hactive].
Defined.

Lemma replaceCellWith_frame_witness :
  0 ≤ 0 < JsArray.len (cells (notebook (sampleEditor 2)))
  ∧ ∃ st', exec (replaceCellWith 0 (FormalCell "new" "mor")) (sampleEditor 2)
           = Some st'
      ∧ JsArray.get (cells (notebook st')) 0 = Some (FormalCell "new" "mor")
      ∧ JsArray.get (cells (notebook st')) 1
        = Some (RichTextCell "c1" "text")
      ∧ cellsState st' = cellsState (sampleEditor 2).
Proof.
  assert (0 ≤ 0 < JsArray.len (cells (notebook (sampleEditor 2)))) as Hi
    by len_lia.
  split; [exact Hi|].
  destruct (replaceCellWith_frame (sampleEditor 2) 0 (FormalCell "new" "mor")
              Hi) as (st' & Hexec & _ & Hnew & Hother & Hsig & _).
  assert (1 ≠ 0) as Hne by lia.
  exists st'. split; [exact Hexec|]. split; [exact Hnew|].
  split; [exact (Hother 1 Hne)|exact Hsig].
Defined.

Lemma shiftEnter_then_insert_witness :
  -1 ≤ activeCell (cellsState (sampleEditor 1))
     < JsArray.len (cells (notebook (sampleEditor 1)))
  ∧ ∃ st1 st2,
      exec (addAfterActiveCell (newStemCell "s")) (sampleEditor 1) = Some st1
      ∧ exec (addOrReplaceActiveCell (FormalCell "new" "mor")) st1 = Some st2
      ∧ exec (addAfterActiveCell (FormalCell "new" "mor")) (sampleEditor 1)
        = Some st2.
Proof.
  assert (-1 ≤ activeCell (cellsState (sampleEditor 1))
             < JsArray.len (cells (notebook (sampleEditor 1)))) as Ha
    by len_lia.
  split; [exact Ha|].
  exact (shiftEnter_then_insert (sampleEditor 1) "s" (FormalCell "new" "mor")
           Ha).
Defined.

Lemma deleteBackward_then_add_witness :
  0 ≤ 1 < JsArray.len (cells (notebook (sampleEditor 1)))
  ∧ ∃ st1 st2,
      exec (deleteBackward (cellActions (RichTextCell "c1" "text") 1))
        (sampleEditor 1) = Some st1
      ∧ exec (addAfterActiveCell (FormalCell "new" "mor")) st1 = Some st2
      ∧ cells (notebook st2)
        = [StemCell "c0"; FormalCell "new" "mor"; FormalCell "c2" "ob"]
      ∧ activeCell (cellsState st2) = 1.
Proof.
  assert (0 ≤ 1 < JsArray.len (cells (notebook (sampleEditor 1)))) as Hi
    by len_lia.
  split; [exact Hi|].
  destruct (deleteBackward_then_add (sampleEditor 1)
              (RichTextCell "c1" "text") 1 (FormalCell "new" "mor") Hi)
    as (st1 & st2 & Hexec1 & Hexec2 & Hcells & Hactive & _).
  exists st1, st2. split; [exact Hexec1|]. split; [exact Hexec2|].
  split; [exact Hcells|exact Hactive].
Defined.

Lemma setSelectedCells_excludes_text_witness :
  ({[ "c0" ]} : gset CellId) ≠ ∅
  ∧ ∃ st', exec (setSelectedCells (inl {[ "c0" ]})) (sampleEditor 0) = Some st'
      ∧ selectedCells (cellsState st') = {[ "c0" ]}
      ∧ textSelection st' = Some 0%nat.
Proof.
  assert (({[ "c0" ]} : gset CellId) ≠ ∅) as Hne.
  { intros Heq. apply (f_equal size) in Heq.
    rewrite size_singleton, size_empty in Heq. discriminate. }
  split; [exact Hne|].
  destruct (setSelectedCells_excludes_text (sampleEditor 0) (inl {[ "c0" ]}))
    as (st' & Hexec & Hsel & _ & _ & Hclear & _).
  exists st'. split; [exact Hexec|]. split; [exact Hsel|exact (Hclear Hne)].
Defined.

Lemma toggleCellSelection_flips_witness :
  "c0" ≠ "c1"
  ∧ ∃ st', exec (toggleCellSelection "c1") (sampleEditor 0) = Some st'
      ∧ ("c1" ∈ selectedCells (cellsState st')
         ↔ "c1" ∉ selectedCells (cellsState (sampleEditor 0)))
      ∧ ("c0" ∈ selectedCells (cellsState st')
         ↔ "c0" ∈ selectedCells (cellsState (sampleEditor 0))).
Proof.
  assert ("c0" ≠ "c1") as Hne by discriminate.
  split; [exact Hne|].
  destruct (toggleCellSelection_flips (sampleEditor 0) "c1")
    as (st' & Hexec & Hflip & Hother & _).
  exists st'. split; [exact Hexec|]. split; [exact Hflip|exact (Hother _ Hne)].
Defined.

Lemma handleSelectionChange_excludes_cells_witness :
  is_Some (textSelection (sampleEditor 0))
  ∧ ∃ st', exec (handleSelectionChange SelectionRange) (sampleEditor 0)
           = Some st'
      ∧ selectedCells (cellsState st') = ∅
      ∧ textSelection st' = Some 1%nat.
Proof.
  assert (is_Some (textSelection (sampleEditor 0))) as Hsel
    by (exists 1%nat; reflexivity).
  split; [exact Hsel|].
  destruct (handleSelectionChange_excludes_cells (sampleEditor 0)
              SelectionRange) as (st' & Hexec & _ & _ & Htext & Hclear & _).
  exists st'. split; [exact Hexec|].
  split; [exact (Hclear eq_refl Hsel)|exact Htext].
Defined.

Lemma canMonitor_accepts_resolving_witness :
  resolves (CellDragData "c1" None) sampleCells
  ∧ ∃ b, canMonitor (CellDragData "c1" None) (sampleEditor 0)
         = Some (b, sampleEditor 0)
      ∧ b = true.
Proof.
  assert (resolves (T:=string) (CellDragData "c1" None) sampleCells) as Hres.
  { unfold resolves. apply (bool_decide_unpack _). by vm_compute. }
  split; [exact Hres|].
  destruct (canMonitor_accepts_resolving (sampleEditor 0)
              (CellDragData "c1" None)) as (b & Hrun & Hiff).
  exists b. split; [exact Hrun|]. apply Hiff. exact Hres.
Defined.

Lemma placeholders_exclusive_witness :
  let stems : Notebook string := {| cells := [StemCell "a"; StemCell "b"] |} in
  (cells stems ≠ [] ∧ Forall (λ c, cell_tag c = TagStem) (cells stems))
  ∧ emptyPlaceholderShown stems = false
  ∧ appendButtonShown stems = false.
Proof.
  set (stems := {| cells := [StemCell "a"; StemCell "b"] |} : Notebook string).
  assert (cells stems ≠ [] ∧ Forall (λ c, cell_tag c = TagStem) (cells stems))
    as Hstems.
  { split; [discriminate|]. repeat constructor. }
  split; [exact Hstems|].
  destruct (placeholders_exclusive stems) as [_ Hiff].
  apply Hiff. exact Hstems.
Defined.

Lemma changeContent_frame_witness :
  JsArray.get (cells (notebook (sampleEditor 0))) 2
  = Some (FormalCell "c2" "ob")
  ∧ ∃ st', exec (changeContent 2 (λ content, String.append content "ject"))
             (sampleEditor 0) = Some st'
      ∧ JsArray.get (cells (notebook st')) 2 = Some (FormalCell "c2" "object")
      ∧ JsArray.get (cells (notebook st')) 0 = Some (StemCell "c0")
      ∧ cellsState st' = cellsState (sampleEditor 0).
Proof.
  assert (JsArray.get (cells (notebook (sampleEditor 0))) 2
          = Some (FormalCell "c2" "ob")) as Hget by reflexivity.
  split; [exact Hget|].
  destruct (changeContent_frame (sampleEditor 0) 2
              (λ content, String.append content "ject") "c2" "ob" Hget)
    as (st' & Hexec & Hnew & Hother & _ & Hsig & _).
  assert (0 ≠ 2) as Hne by lia.
  exists st'. split; [exact Hexec|]. split; [exact Hnew|].
  split; [exact (Hother 0 Hne)|exact Hsig].
Defined.

(** ** The ids of the cells *)

Section DistinctIds.
Context {T : Type}.
Implicit Types (st : Editor T) (cell c : Cell T) (l : list (Cell T)).
Implicit Types (i : Z) (ev : Event T).

(** X20.  Whenever the closure of an event completes, it has changed the
    sequence of cells in one of four ways only: it has kept the ids of the
    cells, up to their order; or put in one cell, the one it brings; or
    taken out one cell; or replaced one cell by the one it brings.  It
    completes from every state whose [activeCell] is -1 or an index of the
    notebook. *)
Theorem handle_changes_one_cell ev st :
  (∀ st', exec (handle ev) st = Some st' →
     oneCellChange ev (cells (notebook st)) (cells (notebook st')))
  ∧ (-1 ≤ activeCell (cellsState st) < JsArray.len (cells (notebook st)) →
     completes (handle ev) st).
Proof.
  split; [|apply handle_completes].
  intros st' Hexec.
  destruct (handle_outcome ev st) as [(st1 & Hexec1 & Hch & _)|[Hraise _]];
    congruence.
Qed.

Lemma NoDup_insert_fresh (xs : list CellId) (k : nat) x :
  NoDup xs → x ∉ xs → NoDup (<[k := x]> xs).
Proof.
  intros Hnd Hx. destruct (decide (k < length xs)%nat) as [Hk|Hk].
  - destruct (lookup_lt_is_Some_2 xs k Hk) as [y Hy].
    rewrite insert_take_drop by done.
    rewrite (delete_Permutation xs k y Hy) in Hnd, Hx.
    rewrite delete_take_drop in Hnd, Hx.
    apply NoDup_cons in Hnd as [_ Hnd]. apply not_elem_of_cons in Hx as [_ Hx].
    rewrite <- Permutation_middle. by apply NoDup_cons.
  - by rewrite list_insert_ge by lia.
Qed.

Lemma one_change_keeps_ids_distinct ev l l' :
  NoDup (ids l) →
  (∀ cellId, brings ev = Some cellId → cellId ∉ ids l) →
  oneCellChange ev l l' → NoDup (ids l').
Proof.
  intros Hnd Hfresh Hch.
  destruct Hch as [Hperm|[(k & new & Hev & ->)|[[k ->]|(k & new & Hk & Hev & ->)]]].
  - by rewrite Hperm.
  - unfold ids in *. rewrite fmap_app, fmap_cons, <- Permutation_middle.
    rewrite <- fmap_app, take_drop. apply NoDup_cons. split; [|done].
    by apply Hfresh.
  - unfold ids in *. destruct (decide (k < length l)%nat) as [Hk|Hk].
    + destruct (lookup_lt_is_Some_2 l k Hk) as [y Hy].
      rewrite (delete_Permutation l k y Hy), fmap_cons in Hnd.
      by apply NoDup_cons in Hnd as [_ Hnd].
    + rewrite delete_take_drop, (take_ge l), (drop_ge l), app_nil_r by lia.
      done.
  - unfold ids in *. rewrite list_fmap_insert.
    apply NoDup_insert_fresh; [done|]. by apply Hfresh.
Qed.

(** X21.  When the ids of the cells of the notebook are distinct and the
    cell that an event brings, if it brings one, has an id that no cell of
    the notebook has, the ids of the cells are distinct whenever the closure
    of the event has completed; and it completes, with distinct ids, from
    every state whose [activeCell] is -1 or an index of the notebook. *)
Theorem handle_keeps_ids_distinct ev st :
  NoDup (ids (cells (notebook st))) →
  (∀ cellId, brings ev = Some cellId → cellId ∉ ids (cells (notebook st))) →
  (∀ st', exec (handle ev) st = Some st' → NoDup (ids (cells (notebook st'))))
  ∧ (-1 ≤ activeCell (cellsState st) < JsArray.len (cells (notebook st)) →
     ∃ st', exec (handle ev) st = Some st'
            ∧ NoDup (ids (cells (notebook st')))).
Proof.
  intros Hnd Hfresh.
  destruct (handle_outcome ev st) as [(st1 & Hexec1 & Hch & _)|[Hraise Hout]].
  - pose proof (one_change_keeps_ids_distinct ev _ _ Hnd Hfresh Hch) as Hnd1.
    split; [intros st' Hexec; congruence|]. intros _. by exists st1.
  - split; [intros st' Hexec; congruence|]. intros Ha. by destruct Hout.
Qed.

End DistinctIds.

Lemma handle_keeps_ids_distinct_witness :
  NoDup (ids (cells (notebook (sampleEditor 1))))
  ∧ (∀ cellId, brings (CreateBelow (T:=string) 1 "s") = Some cellId →
       cellId ∉ ids (cells (notebook (sampleEditor 1))))
  ∧ -1 ≤ activeCell (cellsState (sampleEditor 1))
       < JsArray.len (cells (notebook (sampleEditor 1)))
  ∧ ∃ st', exec (handle (CreateBelow 1 "s")) (sampleEditor 1) = Some st'
      ∧ NoDup (ids (cells (notebook st'))).
Proof.
  assert (∀ cellId, brings (CreateBelow (T:=string) 1 "s") = Some cellId →
            cellId ∉ ids (cells (notebook (sampleEditor 1)))) as Hfresh.
  { intros cellId [= <-]. apply (bool_decide_unpack _). by vm_compute. }
  assert (-1 ≤ activeCell (cellsState (sampleEditor 1))
             < JsArray.len (cells (notebook (sampleEditor 1)))) as Ha
    by len_lia.
  split; [exact sampleCells_ids_distinct|]. split; [exact Hfresh|].
  split; [exact Ha|].
  destruct (handle_keeps_ids_distinct (CreateBelow 1 "s") (sampleEditor 1)
              sampleCells_ids_distinct Hfresh) as [_ Hcompletes].
  exact (Hcompletes Ha).
Defined.

Lemma handle_changes_one_cell_witness :
  -1 ≤ activeCell (cellsState (sampleEditor 1))
     < JsArray.len (cells (notebook (sampleEditor 1)))
  ∧ completes (handle (ShiftEnter (T:=string) "s")) (sampleEditor 1)
  ∧ ∃ st', exec (handle (DeleteForward (T:=string) 2)) (sampleEditor 1)
           = Some st'
      ∧ oneCellChange (DeleteForward 2) sampleCells (cells (notebook st')).
Proof.
  assert (-1 ≤ activeCell (cellsState (sampleEditor 1))
             < JsArray.len (cells (notebook (sampleEditor 1)))) as Ha
    by len_lia.
  split; [exact Ha|].
  split.
  - destruct (handle_changes_one_cell (ShiftEnter "s") (sampleEditor 1))
      as [_ Hcompletes].
    exact (Hcompletes Ha).
  - destruct (handle_changes_one_cell (DeleteForward 2) (sampleEditor 1))
      as [Hchange _].
    eexists. split; [reflexivity|]. apply Hchange. reflexivity.
Defined.

Lemma activeCell_stays_in_bounds_witness :
  ∃ st, exec (handleAll [DeleteForward (T:=string) 2])
          (initEditor {| cells := sampleCells |} None) = Some st
    ∧ activeCellInBounds st
    ∧ activeCell (cellsState st) = JsArray.len (cells (notebook st)).
Proof.
  eexists. split; [reflexivity|]. split; [|reflexivity].
  apply (activeCell_stays_in_bounds {| cells := sampleCells |} None
           [DeleteForward 2]).
  reflexivity.
Defined.
